(** * Icon pipeline of gopher-automate: [scripts/icons/process_icons.py]

    A shallow embedding of the script that derives the application icon and
    the tray icons from one canonical SVG, and the properties its
    specification states about it.

    Modelling conventions.
    - A Python [str] is a Rocq [string]; characters beyond ASCII are their
      UTF-8 bytes.
    - An [xml.etree.ElementTree.Element] is a finite tree: tag, attribute
      dictionary, text, tail and the ordered list of children.  A document
      obtained from [ET.parse] shares no element between two parents, so the
      in-place attribute edits of the script are tree transformers.
    - A Python [float] is a finite rational, the negative zero, an infinity
      or [nan].  The special values and the overflow of a subtraction to an
      infinity follow binary64; the rounding of finite results and
      underflow are not modelled.  The builtins [float()] and the float
      formatting of f-strings are parameters of the development.
    - Files, standard output and the external [magick] process are an
      explicit world threaded through a state-and-exception monad.  A path
      is the name of one file: two spellings of one file are not modelled.
      Whether the operating system lets an existing path be removed is a
      parameter. *)

From Stdlib Require Import ZArith QArith Qcanon Ascii String.
From stdpp Require Import base option list strings gmap pretty.

Set Warnings "-register-all".
Local Open Scope string_scope.

(** ** Exceptions and results *)

(** The [OSError] subclasses [subprocess.run], [open] and [os.remove] can
    raise. *)
Inductive OSError :=
  | FileNotFoundError
  | PermissionError
  | IsADirectoryError
  | OtherOSError.

(** The exceptions of the script. [CalledProcessError] carries the exit
    status and the command, as [subprocess] builds it. *)
Inductive exn :=
  | OS (e : OSError)
  | ParseError
  | ValueError
  | CalledProcessError (returncode : Z) (cmd : list string).

Inductive result (A : Type) :=
  | Ok (a : A)
  | Raise (e : exn).
Arguments Ok {A} a.
Arguments Raise {A} e.

(** ** Element trees *)

Inductive Element := mkElement {
  tag : string;
  attrib : gmap string string;
  text : option string;
  tail : option string;
  children : list Element }.

(** [ET.Element(tag, attrib)]: a fresh element without text or children. *)
Definition ET_Element (t : string) (a : gmap string string) : Element :=
  mkElement t a None None [].

(** [parent.append(child)]. *)
Definition append (parent child : Element) : Element :=
  mkElement (tag parent) (attrib parent) (text parent) (tail parent)
            (children parent ++ [child]).

(** [elem.set(key, value)]. *)
Definition set (elem : Element) (key value : string) : Element :=
  mkElement (tag elem) (<[key := value]> (attrib elem)) (text elem)
            (tail elem) (children elem).

(** The element reached from [e] by following child indices [p]; [[]] is
    [e] itself.  [e.iter()] enumerates exactly the elements that have a
    path. *)
Fixpoint subelement (p : list nat) (e : Element) : option Element :=
  match p with
  | [] => Some e
  | i :: p' =>
      match children e !! i with
      | Some c => subelement p' c
      | None => None
      end
  end.

Definition svg_g : string := "{http://www.w3.org/2000/svg}g".
Definition svg_rect : string := "{http://www.w3.org/2000/svg}rect".
Definition svg_svg : string := "{http://www.w3.org/2000/svg}svg".

(** ** Strings *)

(** [str(n)] for an [int]. *)
Definition str_int (n : Z) : string := pretty n.

(** The characters [str.split()] separates on: within ASCII, one byte. *)
Definition is_space (c : ascii) : bool :=
  let n := nat_of_ascii c in
  (n =? 32)%nat || ((9 <=? n)%nat && (n <=? 13)%nat)
  || ((28 <=? n)%nat && (n <=? 31)%nat).

(** Beyond ASCII, as UTF-8: U+0085 and U+00A0 take two bytes. *)
Definition is_space2 (c1 c2 : ascii) : bool :=
  (nat_of_ascii c1 =? 194)%nat
  && ((nat_of_ascii c2 =? 133)%nat || (nat_of_ascii c2 =? 160)%nat).

(** U+1680, U+2000 to U+200A, U+2028, U+2029, U+202F, U+205F and U+3000
    take three bytes. *)
Definition is_space3 (c1 c2 c3 : ascii) : bool :=
  let n1 := nat_of_ascii c1 in
  let n2 := nat_of_ascii c2 in
  let n3 := nat_of_ascii c3 in
  ((n1 =? 225) && (n2 =? 154) && (n3 =? 128))%nat
  || ((n1 =? 226) && (n2 =? 128)
      && (((128 <=? n3) && (n3 <=? 138)) || (n3 =? 168) || (n3 =? 169)
          || (n3 =? 175)))%nat
  || ((n1 =? 226) && (n2 =? 129) && (n3 =? 159))%nat
  || ((n1 =? 227) && (n2 =? 128) && (n3 =? 128))%nat.

(** The word being read ends: an empty one is no word. *)
Definition end_word (cur : string) (words : list string) : list string :=
  if decide (cur = "") then words else cur :: words.

(** [s.split()]: the maximal runs of characters that are no separator.
    [cur] is the run being read. *)
Fixpoint split_from (cur : string) (s : string) : list string :=
  match s with
  | EmptyString => end_word cur []
  | String c1 s1 =>
      if is_space c1 then end_word cur (split_from "" s1) else
      match s1 with
      | String c2 s2 =>
          if is_space2 c1 c2 then end_word cur (split_from "" s2) else
          match s2 with
          | String c3 s3 =>
              if is_space3 c1 c2 c3 then end_word cur (split_from "" s3)
              else split_from (cur ++ String c1 "") s1
          | EmptyString => split_from (cur ++ String c1 "") s1
          end
      | EmptyString => split_from (cur ++ String c1 "") s1
      end
  end.

Definition split (s : string) : list string := split_from "" s.

(** [c.upper()] on one character: ASCII small letters are shifted, the rest
    is kept.  No character beyond ASCII has an upper-case form made of
    [#], digits and the letters A, D and E alone, so comparing [s.upper()]
    with ['#6AD7E5'] gives the same answer as in Python. *)
Definition upper_ascii (c : ascii) : ascii :=
  let n := nat_of_ascii c in
  if ((97 <=? n)%nat && (n <=? 122)%nat)%bool
  then ascii_of_nat (n - 32) else c.

Fixpoint upper (s : string) : string :=
  match s with
  | EmptyString => EmptyString
  | String c s' => String (upper_ascii c) (upper s')
  end.

(** Two characters, then two strings, that differ at most by letter case. *)
Definition same_letter (a b : ascii) : Prop :=
  a = b \/ upper_ascii a = b \/ a = upper_ascii b.

Fixpoint caseless_eq (s t : string) : Prop :=
  match s, t with
  | EmptyString, EmptyString => True
  | String a s', String b t' => same_letter a b /\ caseless_eq s' t'
  | _, _ => False
  end.

(** ** Numbers *)

Definition two : Qc := (1 + 1)%Qc.

(** A Python [float]: a finite value, the negative zero, an infinity or
    [nan].  A finite value is the rational it stands for, [Fin 0] being the
    zero [0.0] and [NegZero] the zero [-0.0]; the rounding of binary64 and
    underflow are not modelled, the special values and the overflow to an
    infinity are. *)
Inductive pyfloat :=
  | Fin (q : Qc)
  | NegZero
  | Inf (negative : bool)
  | NaN.

(** The rational a float stands for, when it is finite. *)
Definition finite_value (a : pyfloat) : option Qc :=
  match a with
  | Fin q => Some q
  | NegZero => Some 0%Qc
  | _ => None
  end.

(** A float that is neither an infinity nor [nan]. *)
Definition is_finite (a : pyfloat) : Prop :=
  match a with
  | Fin _ | NegZero => True
  | _ => False
  end.

Definition rational (a : pyfloat) : Qc := default 0%Qc (finite_value a).

(** The least magnitude that binary64 rounds to an infinity: halfway
    between the largest float and [2 ^ 1024]. *)
Definition overflow_bound : Qc := Qc_of_Z (2 ^ 1024 - 2 ^ 970).

Definition no_overflow (q : Qc) : Prop :=
  (- overflow_bound < q)%Qc /\ (q < overflow_bound)%Qc.

(** The float of a rational result. *)
Definition round_range (q : Qc) : pyfloat :=
  if decide (overflow_bound <= q)%Qc then Inf false
  else if decide (q <= - overflow_bound)%Qc then Inf true
  else Fin q.

(** [a - b].  A difference that is zero is [0.0], except that
    [-0.0 - 0.0] is [-0.0]. *)
Definition float_sub (a b : pyfloat) : pyfloat :=
  match a, b with
  | NaN, _ | _, NaN => NaN
  | Inf s, Inf t => if Bool.eqb s t then NaN else Inf s
  | Inf s, _ => Inf s
  | _, Inf t => Inf (negb t)
  | NegZero, NegZero => Fin 0%Qc
  | NegZero, Fin q => if decide (q = 0%Qc) then NegZero else Fin (- q)%Qc
  | Fin p, NegZero => Fin p
  | Fin p, Fin q => round_range (p - q)
  end.

(** [a / 2]. *)
Definition float_half (a : pyfloat) : pyfloat :=
  match a with
  | Fin q => Fin (q / two)
  | _ => a
  end.

(** [a < b]: false as soon as [nan] is compared; the two zeros are
    equal. *)
Definition float_ltb (a b : pyfloat) : bool :=
  match a, b with
  | NaN, _ | _, NaN => false
  | Inf s, Inf t => s && negb t
  | Inf s, _ => s
  | _, Inf t => negb t
  | _, _ => bool_decide (rational a < rational b)%Qc
  end.


(** Python's [max(a, b)]: the second argument wins only when it is strictly
    greater, so that [max(nan, b)] is [nan] and [max(a, nan)] is [a]. *)
Definition max_float (a b : pyfloat) : pyfloat :=
  if float_ltb a b then b else a.

(** The larger of two rationals. *)
Definition max_finite (a b : Qc) : Qc := if decide (a < b)%Qc then b else a.

(** *** An instance of [float()] for the examples

    [simple_float] reads the ASCII words that [float()] accepts, a word
    being a text without white space, as [split] yields them: an optional
    sign, then [inf], [infinity] or [nan] in any letter case, or a decimal
    number with optional fraction and exponent, underscores between digits
    allowed.  It agrees with [float()] on the ASCII words up to the
    rounding, which the model leaves out: a finite literal keeps its exact
    value where Python takes the nearest binary64.  A word with a character
    beyond ASCII is refused, where [float()] accepts the decimal digits of
    other scripts. *)
Definition digit_value (c : ascii) : option Z :=
  let n := nat_of_ascii c in
  if ((48 <=? n)%nat && (n <=? 57)%nat)%bool
  then Some (Z.of_nat (n - 48)) else None.

(** The digits that follow a first digit, [(["_"] digit)*]: their value
    on top of [acc], their number on top of [n], and the rest. *)
Fixpoint more_digits (acc : Z) (n : nat) (s : string) : Z * nat * string :=
  match s with
  | EmptyString => (acc, n, s)
  | String c s1 =>
      match digit_value c with
      | Some d => more_digits (10 * acc + d) (S n) s1
      | None =>
          if Ascii.eqb c "_" then
            match s1 with
            | String c2 s2 =>
                match digit_value c2 with
                | Some d => more_digits (10 * acc + d) (S n) s2
                | None => (acc, n, s)
                end
            | EmptyString => (acc, n, s)
            end
          else (acc, n, s)
      end
  end.

Definition digitpart (s : string) : option (Z * nat * string) :=
  match s with
  | String c s1 =>
      match digit_value c with
      | Some d => Some (more_digits d 1 s1)
      | None => None
      end
  | EmptyString => None
  end.

Definition signed (s : string) : bool * string :=
  match s with
  | String "-" r => (true, r)
  | String "+" r => (false, r)
  | _ => (false, s)
  end.

Definition signed_zero (neg : bool) : pyfloat :=
  if neg then NegZero else Fin 0%Qc.

(** [m * 10 ^ e] with its sign, for [0 <= m], within the range of
    binary64: too large is an infinity, at most [2 ^ -1075] is zero.  The
    first two tests settle the exponents too large to compute with: [m] is
    at least 1 and less than [2 ^ (Z.log2 m + 1)], and 10 is more than
    [2 ^ 3]. *)
Definition scaled (neg : bool) (m e : Z) : pyfloat :=
  if (m =? 0)%Z then signed_zero neg
  else if (400 <? e)%Z then Inf neg
  else if (Z.log2 m + 1 + 3 * e <? -1075)%Z then signed_zero neg
  else
    let q := if (0 <=? e)%Z then Qmake (m * 10 ^ e) 1
             else Qmake m (Z.to_pos (10 ^ (- e))) in
    if decide (Q2Qc q <= Q2Qc (Qmake 1 (2 ^ 1075)))%Qc then signed_zero neg
    else round_range (Q2Qc (if neg then Qopp q else q)).

Definition exponent_part (neg : bool) (m : Z) (k : nat) (rest : string)
  : option pyfloat :=
  match rest with
  | EmptyString => Some (scaled neg m (- Z.of_nat k))
  | String c r =>
      if Ascii.eqb (upper_ascii c) "E" then
        let '(eneg, r') := signed r in
        match digitpart r' with
        | Some (e, _, EmptyString) =>
            Some (scaled neg m ((if eneg then - e else e) - Z.of_nat k))
        | _ => None
        end
      else None
  end.

Definition simple_float (s : string) : option pyfloat :=
  let '(neg, body) := signed s in
  let name := upper body in
  if decide (name = "INF" \/ name = "INFINITY") then Some (Inf neg)
  else if decide (name = "NAN") then Some NaN
  else
    match digitpart body with
    | Some (i, _, String "." rest) =>
        match digitpart rest with
        | Some (f, k, rest') =>
            exponent_part neg (i * 10 ^ Z.of_nat k + f) k rest'
        | None => exponent_part neg i 0 rest
        end
    | Some (i, _, rest) => exponent_part neg i 0 rest
    | None =>
        match body with
        | String "." rest =>
            match digitpart rest with
            | Some (f, k, rest') => exponent_part neg f k rest'
            | None => None
            end
        | _ => None
        end
    end.

(** *** An instance of the float formatting for the examples

    [simple_repr] prints [nan], [inf], [-inf], [-0.0], and a finite value in the
    layout of Python's [repr]: its decimal digits, with [.0] after a whole
    number and with an exponent when the decimal point falls more than 16
    places to the right or more than 3 to the left of the first digit.  It
    is the text Python prints for a float that is a decimal of at most 15
    digits, such as [600.0], [0.0] and [1e+308]; the value is printed
    exactly, where Python prints the shortest digits of the binary64
    value.  A rational without a finite decimal expansion, which no float
    is, is printed as a fraction. *)

(** The least [k], searched from [k], such that [den] divides [10 ^ k]. *)
Fixpoint decimal_places (fuel : nat) (den : Z) (k : nat) : option nat :=
  match fuel with
  | O => None
  | S fuel' =>
      if (10 ^ Z.of_nat k mod den =? 0)%Z then Some k
      else decimal_places fuel' den (S k)
  end.

Fixpoint zeros (n : nat) : string :=
  match n with
  | O => EmptyString
  | S n' => String "0" (zeros n')
  end.

(** A text of digits without the zeros at its end. *)
Fixpoint strip_zeros (s : string) : string :=
  match s with
  | EmptyString => EmptyString
  | String c s' =>
      let t := strip_zeros s' in
      if decide (t = "") then
        (if Ascii.eqb c "0" then "" else String c "")
      else String c t
  end.

Fixpoint take_str (n : nat) (s : string) : string :=
  match n, s with
  | S n', String c s' => String c (take_str n' s')
  | _, _ => EmptyString
  end.

Fixpoint drop_str (n : nat) (s : string) : string :=
  match n, s with
  | S n', String c s' => drop_str n' s'
  | _, _ => s
  end.

Definition simple_repr (x : pyfloat) : string :=
  match x with
  | NaN => "nan"
  | Inf neg => if neg then "-inf" else "inf"
  | NegZero => "-0.0"
  | Fin q =>
      let n := Qnum (this q) in
      let d := Zpos (Qden (this q)) in
      let sign : string := if (n <? 0)%Z then "-" else "" in
      if (n =? 0)%Z then "0.0" else
      match decimal_places 1200 d 0 with
      | Some k =>
          let all : string := pretty (Z.abs n * 10 ^ Z.of_nat k / d)%Z in
          let decpt := (Z.of_nat (String.length all) - Z.of_nat k)%Z in
          let ds := strip_zeros all in
          let len := Z.of_nat (String.length ds) in
          if ((-4 <? decpt) && (decpt <=? 16))%Z then
            if (decpt <=? 0)%Z
            then sign ++ "0." ++ zeros (Z.to_nat (- decpt)) ++ ds
            else if (len <=? decpt)%Z
                 then sign ++ ds ++ zeros (Z.to_nat (decpt - len)) ++ ".0"
                 else sign ++ take_str (Z.to_nat decpt) ds ++ "."
                      ++ drop_str (Z.to_nat decpt) ds
          else
            let e := (decpt - 1)%Z in
            let etext : string := pretty (Z.abs e) in
            sign ++ take_str 1 ds
            ++ (if (1 <? len)%Z then "." ++ drop_str 1 ds else "")
            ++ "e" ++ (if (e <? 0)%Z then "-" else "+")
            ++ (if (String.length etext <? 2)%nat then "0" else "") ++ etext
      | None => pretty n ++ "/" ++ pretty d
      end
  end.

(** ** Pads *)

(** The local constants of [create_pads]. *)
Definition pad_size : Z := 85.
Definition pad_gap : Z := 14.
Definition start_x : Z := 109.
Definition start_y : Z := 260.

Definition pads_coords : list (Z * Z) :=
  [ (start_x, start_y); (start_x + pad_size + pad_gap, start_y);
    (start_x, start_y + pad_size + pad_gap);
    (start_x + pad_size + pad_gap, start_y + pad_size + pad_gap) ]%Z.

(** One [rect] of the loop body of [create_pads]. *)
Definition pad_rect (color : string) (xy : Z * Z) : Element :=
  ET_Element svg_rect
    (list_to_map
       [ ("x", str_int xy.1); ("y", str_int xy.2);
         ("width", str_int pad_size); ("height", str_int pad_size);
         ("rx", "10"); ("ry", "10"); ("fill", color) ]).

Definition create_pads (color : string) : Element :=
  let g := ET_Element svg_g {[ "id" := "midi-pads" ]} in
  foldl (fun g xy => append g (pad_rect color xy)) g pads_coords.

(** The centering formula of the specification's PadSpec, as the
    specification words it: [start_x = center_x - (2*size+gap)/2]. *)
Definition PadSpec_start_x (center_x size gap : Qc) : Qc :=
  (center_x - (2 * size + gap) / 2)%Qc.

(** The four positions of the PadSpec from a start corner. *)
Definition PadSpec_positions (sx sy size gap : Z) : list (Z * Z) :=
  [ (sx, sy); (sx + size + gap, sy); (sx, sy + size + gap);
    (sx + size + gap, sy + size + gap) ]%Z.

(** The width of the reference canvas the pads are laid out on, 401.98:
    the default [viewBox] of [make_square] is [0 0 401.98 559.472]. *)
Definition reference_width : Qc := Q2Qc (40198 # 100).

(** ** Squaring geometry *)

(** Lines 69-71 of [make_square]: the side of the square and the offset of
    the content, from the width and height of the [viewBox]. *)
Definition square_geometry (w h : pyfloat) : pyfloat * pyfloat * pyfloat :=
  let target_dim := max_float w h in
  let dx := float_half (float_sub target_dim w) in
  let dy := float_half (float_sub target_dim h) in
  (target_dim, dx, dy).

(** Artwork drawn for the viewport [(x, y, w, h)] and moved by [(dx, dy)]
    is centred in the canvas [(0, 0, side, side)] when the two centres
    coincide on both axes. *)
Definition centered_finite (x y w h side dx dy : Qc) : Prop :=
  (x + dx + w / two = side / two)%Qc /\ (y + dy + h / two = side / two)%Qc.

(** With an infinity or [nan] among the numbers nothing is centred. *)
Definition centered (x y w h side dx dy : pyfloat) : Prop :=
  match finite_value x, finite_value y, finite_value w, finite_value h,
        finite_value side, finite_value dx, finite_value dy with
  | Some x, Some y, Some w, Some h, Some side, Some dx, Some dy =>
      centered_finite x y w h side dx dy
  | _, _, _, _, _, _, _ => False
  end.

(** ** The world: files, standard output, processes *)

(** A file holds a document that [ET.parse] reads back, or anything else.
    A path names a file or nothing, and writing a document always
    succeeds; whether an existing path can be removed is up to the
    operating system (see [remove_error] below). *)
Inductive File :=
  | SvgFile (root : Element)
  | RawFile (data : string).

(** What [subprocess.run] observes: the process ran and exited with a
    status, or it could not be started. *)
Inductive proc_outcome :=
  | Exited (returncode : Z)
  | SpawnError (e : OSError).

(** [calls] records the commands handed to [subprocess.run] and how each
    ended, in order. *)
Record World := mkWorld {
  fs : gmap string File;
  stdout : list string;
  calls : list (list string * proc_outcome) }.

(** A computation changes the world and returns a value or raises; the
    changes made before a raise persist. *)
Definition M (A : Type) : Type := World -> World * result A.

#[global] Instance M_ret : MRet M := fun A a w => (w, Ok a).

#[global] Instance M_bind : MBind M := fun A B f m w =>
  match m w with
  | (w', Ok a) => f a w'
  | (w', Raise e) => (w', Raise e)
  end.

Definition lift {A} (r : result A) : M A := fun w => (w, r).

(** [try: body except ...: handler]; a handler answering [None] does not
    match the exception, which goes on. *)
Definition try_except {A} (body : M A) (handler : exn -> option (M A)) : M A :=
  fun w =>
    match body w with
    | (w', Ok a) => (w', Ok a)
    | (w', Raise e) =>
        match handler e with
        | Some h => h w'
        | None => (w', Raise e)
        end
    end.

Definition print (line : string) : M unit := fun w =>
  (mkWorld (fs w) (stdout w ++ [line]) (calls w), Ok tt).

(** [ET.parse(path).getroot()]. *)
Definition ET_parse (path : string) : M Element := fun w =>
  match fs w !! path with
  | Some (SvgFile root) => (w, Ok root)
  | Some (RawFile _) => (w, Raise ParseError)
  | None => (w, Raise (OS FileNotFoundError))
  end.

(** [ET.ElementTree(root).write(path, ...)]. *)
Definition ET_write (path : string) (root : Element) : M unit := fun w =>
  (mkWorld (<[path := SvgFile root]> (fs w)) (stdout w) (calls w), Ok tt).

Definition os_path_exists (path : string) : M bool := fun w =>
  (w, Ok (bool_decide (is_Some (fs w !! path)))).

Definition CANONICAL_PATH : string := "gopher_canonical.svg".
Definition APP_ICON_PATH : string := "app_icon.svg".
Definition TRAY_ICON_PATH : string := "tray_icon.svg".

(** [load_canonical] returns the tree and its root; the script only uses
    the root. *)
Definition load_canonical : M Element := ET_parse CANONICAL_PATH.

Definition with_children (e : Element) (ch : list Element) : Element :=
  mkElement (tag e) (attrib e) (text e) (tail e) ch.

(** ** Recolouring *)

(** Lines 97-98 of [create_app_icon], on one element. *)
Definition go_blue (elem : Element) : Element :=
  match attrib elem !! "fill" with
  | Some v =>
      if decide (upper v = "#6AD7E5") then set elem "fill" "#00ADD8"
      else elem
  | None => elem
  end.

(** Lines 96-98: the loop over [root.iter()], which visits [root] and all
    that lies below it. *)
Fixpoint update_blue (elem : Element) : Element :=
  with_children (go_blue elem) (map update_blue (children elem)).

(** Lines 123-127 (and 138-142) of [create_tray_body]. *)
Definition has_fill (elem : Element) : bool :=
  match attrib elem !! "fill" with
  | Some v => bool_decide (v <> "none")
  | None => true
  end.

(** Lines 129-133 (and 144-148). *)
Definition paint (color : string) (elem : Element) : Element :=
  let elem := if has_fill elem then set elem "fill" color else elem in
  if decide (is_Some (attrib elem !! "stroke"))
  then set elem "stroke" color else elem.

(** Lines 138-148 on [sub] and on every element below it. *)
Fixpoint paint_sub (color : string) (sub : Element) : Element :=
  with_children (paint color sub) (map (paint_sub color) (children sub)).

(** Lines 123-148: one top-level child, then its descendants in the order
    of [elem.iter()]. *)
Definition paint_elem (color : string) (elem : Element) : Element :=
  with_children (paint color elem) (map (paint_sub color) (children elem)).

(** ** Example inputs *)

(** A canonical document on a 400 by 600 canvas: a group in the gopher blue,
    written in mixed case, around an outline without fill, and a shape
    without any paint attribute. *)
Definition example_root : Element :=
  mkElement svg_svg {[ "viewBox" := "0 0 400 600" ]} None None
    [ mkElement svg_g {[ "fill" := "#6aD7e5" ]} None None
        [ mkElement "{http://www.w3.org/2000/svg}path"
            (<[ "stroke" := "#000000" ]> {[ "fill" := "none" ]})
            None None [] ];
      mkElement "{http://www.w3.org/2000/svg}circle" {[ "r" := "5" ]}
        None None [] ].

Definition example_world : World :=
  mkWorld {[ CANONICAL_PATH := SvgFile example_root ]} [] [].

(** The same canvas seen through a [viewBox] that starts at [x = 10]. *)
Definition off_origin_root : Element :=
  mkElement svg_svg {[ "viewBox" := "10 0 400 600" ]} None None
    (children example_root).


(** A [viewBox] whose width and height [float()] reads as infinities, and
    one whose sizes are finite and so far apart that their difference
    overflows. *)
Definition inf_root : Element :=
  mkElement svg_svg {[ "viewBox" := "0 0 inf inf" ]} None None
    (children example_root).

Definition overflow_root : Element :=
  mkElement svg_svg {[ "viewBox" := "0 0 1e308 -1e308" ]} None None
    (children example_root).

(** A [magick] that fails on every call with exit status 1 and writes
    nothing; a system on which [magick] is not installed. *)
Definition failing_magick (cmd : list string) (w : World)
  : proc_outcome * gmap string File := (Exited 1, fs w).

Definition missing_magick (cmd : list string) (w : World)
  : proc_outcome * gmap string File := (SpawnError FileNotFoundError, fs w).

(** *** An instance of [str(e)] for the examples

    [str(e)] of a [CalledProcessError] names the command with the [repr]
    of its list of words, then the exit status or, for a negative status,
    the signal that ended the process (the signal names are those of
    Linux). *)
Definition quote : ascii := ascii_of_nat 34.

Definition hex_digit (n : nat) : ascii :=
  ascii_of_nat (if (n <? 10)%nat then 48 + n else 87 + n).

(** One character of [repr(s)] between quotes [q]. *)
Definition repr_char (q c : ascii) : string :=
  let n := nat_of_ascii c in
  if (Ascii.eqb c q || Ascii.eqb c "\")%bool then String "\" (String c "")
  else if (n =? 10)%nat then "\n"
  else if (n =? 13)%nat then "\r"
  else if (n =? 9)%nat then "\t"
  else if ((n <? 32) || (n =? 127))%nat
       then String "\" (String "x" (String (hex_digit (n / 16))
                                      (String (hex_digit (n mod 16)) "")))
  else String c "".

Fixpoint repr_chars (q : ascii) (s : string) : string :=
  match s with
  | EmptyString => EmptyString
  | String c s' => repr_char q c ++ repr_chars q s'
  end.

Fixpoint has_char (c : ascii) (s : string) : bool :=
  match s with
  | EmptyString => false
  | String c' s' => Ascii.eqb c c' || has_char c s'
  end.

(** [repr(s)] of a [str] of printable characters: in single quotes, or in
    double quotes when [s] holds a single quote and no double one. *)
Definition repr_str (s : string) : string :=
  let q : ascii :=
    if (has_char "'" s && negb (has_char quote s))%bool then quote
    else "'"%char in
  String q (repr_chars q s ++ String q "").

Fixpoint join_comma (l : list string) : string :=
  match l with
  | [] => ""
  | [x] => x
  | x :: l' => x ++ ", " ++ join_comma l'
  end.

(** [str(l)] of a list of [str]. *)
Definition str_list (l : list string) : string :=
  "[" ++ join_comma (repr_str <$> l) ++ "]".

(** The members of [signal.Signals]. *)
Definition signal_names : list (Z * string) :=
  [ (1, "SIGHUP"); (2, "SIGINT"); (3, "SIGQUIT"); (4, "SIGILL");
    (5, "SIGTRAP"); (6, "SIGABRT"); (7, "SIGBUS"); (8, "SIGFPE");
    (9, "SIGKILL"); (10, "SIGUSR1"); (11, "SIGSEGV"); (12, "SIGUSR2");
    (13, "SIGPIPE"); (14, "SIGALRM"); (15, "SIGTERM"); (16, "SIGSTKFLT");
    (17, "SIGCHLD"); (18, "SIGCONT"); (19, "SIGSTOP"); (20, "SIGTSTP");
    (21, "SIGTTIN"); (22, "SIGTTOU"); (23, "SIGURG"); (24, "SIGXCPU");
    (25, "SIGXFSZ"); (26, "SIGVTALRM"); (27, "SIGPROF"); (28, "SIGWINCH");
    (29, "SIGIO"); (30, "SIGPWR"); (31, "SIGSYS"); (34, "SIGRTMIN");
    (64, "SIGRTMAX") ]%Z.

Definition signal_name (n : Z) : option string :=
  (fun found : nat * (Z * string) => found.2.2)
  <$> list_find (fun entry : Z * string => entry.1 = n) signal_names.

Definition str_CalledProcessError (returncode : Z) (cmd : list string)
  : string :=
  if (returncode <? 0)%Z then
    match signal_name (- returncode) with
    | Some name =>
        "Command '" ++ str_list cmd ++ "' died with <Signals." ++ name
        ++ ": " ++ pretty (- returncode)%Z ++ ">."
    | None =>
        "Command '" ++ str_list cmd ++ "' died with unknown signal "
        ++ pretty (- returncode)%Z ++ "."
    end
  else
    "Command '" ++ str_list cmd ++ "' returned non-zero exit status "
    ++ pretty returncode ++ ".".

(** The script asks for the text of a [CalledProcessError] only; the other
    exceptions are given by their class name. *)
Definition example_str_exn (e : exn) : string :=
  match e with
  | CalledProcessError returncode cmd =>
      str_CalledProcessError returncode cmd
  | OS _ => "OSError"
  | ParseError => "ParseError"
  | ValueError => "ValueError"
  end.

(** An operating system that lets every file be removed, and one that
    protects [locked.svg]. *)
Definition no_refusal (path : string) (w : World) : option OSError := None.



(** The pad start the PadSpec formula gives when [center_x] is half the
    reference width, as the specification has it. *)
Definition PadSpec_reference_start_x : Qc :=
  PadSpec_start_x (reference_width / two)%Qc (Qc_of_Z pad_size)
                  (Qc_of_Z pad_gap).

(** ** The script *)

Section Script.

Set Default Proof Using "Type".

(** Python's [float(s)]; [None] is its [ValueError]. *)
Variable float_of_str : string -> option pyfloat.

(** The text an f-string puts for a float. *)
Variable str_of_float : pyfloat -> string.

(** The operating system running a command in a world: how the process
    ended and the files it left. *)
Variable run_process : list string -> World -> proc_outcome * gmap string File.

(** [str(e)] of an exception. *)
Variable str_exn : exn -> string.

(** The error with which the operating system refuses to remove an
    existing path, if it does: the path is a directory, or the permissions
    do not allow it. *)
Variable remove_error : string -> World -> option OSError.

(** [os.remove(path)] raises when there is no such file and when the
    operating system refuses; nothing is removed then. *)
Definition os_remove (path : string) : M unit := fun w =>
  match fs w !! path with
  | Some _ =>
      match remove_error path w with
      | Some e => (w, Raise (OS e))
      | None => (mkWorld (delete path (fs w)) (stdout w) (calls w), Ok tt)
      end
  | None => (w, Raise (OS FileNotFoundError))
  end.

(** Lines 66-67 of [make_square]: the words of the [viewBox] as numbers. *)
Definition viewBox_numbers (root : Element) : option (list pyfloat) :=
  let vb := split (default "0 0 401.98 559.472" (attrib root !! "viewBox")) in
  mapM float_of_str vb.

Definition make_square (root : Element) : result Element :=
  match viewBox_numbers root with
  | Some [x; y; w; h] =>
      let '(target_dim, dx, dy) := square_geometry w h in
      let new_root :=
        ET_Element svg_svg
          (list_to_map
             [ ("viewBox", "0 0 " ++ str_of_float target_dim ++ " "
                           ++ str_of_float target_dim);
               ("width", str_of_float target_dim);
               ("height", str_of_float target_dim);
               ("version", "1.1") ]) in
      let content_group :=
        ET_Element svg_g
          {[ "transform" := "translate(" ++ str_of_float dx ++ ", "
                            ++ str_of_float dy ++ ")" ]} in
      let content_group := foldl append content_group (children root) in
      Ok (append new_root content_group)
  | _ => Raise ValueError
  end.

(** The shape the specification gives to the result of [make_square]: a
    root whose [viewBox], [width] and [height] carry [side], holding one
    group that moves [content] by [(dx, dy)]. *)
Definition is_square_canvas (out : Element) (side dx dy : pyfloat)
           (content : list Element) : Prop :=
  tag out = svg_svg
  /\ attrib out !! "viewBox"
     = Some ("0 0 " ++ str_of_float side ++ " " ++ str_of_float side)
  /\ attrib out !! "width" = Some (str_of_float side)
  /\ attrib out !! "height" = Some (str_of_float side)
  /\ exists g,
       children out = [g]
       /\ tag g = svg_g
       /\ attrib g !! "transform"
          = Some ("translate(" ++ str_of_float dx ++ ", "
                  ++ str_of_float dy ++ ")")
       /\ children g = content.

(** The squaring property with centring claimed for every [viewBox],
    whatever its origin. *)
Definition squares_and_centers (root : Element) : Prop :=
  forall x y w h,
    viewBox_numbers root = Some [x; y; w; h] ->
    exists out side dx dy,
      make_square root = Ok out
      /\ square_geometry w h = (side, dx, dy)
      /\ is_square_canvas out side dx dy (children root)
      /\ centered x y w h side dx dy.


Definition create_app_icon : M unit :=
  root ← load_canonical;
  let root := update_blue root in
  let pads := create_pads "#FFFFFF" in
  let root := append root pads in
  new_root ← lift (make_square root);
  ET_write APP_ICON_PATH new_root;;
  print ("Created " ++ APP_ICON_PATH).

Definition create_tray_body (filename color : string) : M unit :=
  root ← load_canonical;
  let old_children := children root in
  let root := with_children root [] in
  let body_group := ET_Element svg_g ∅ in
  let body_group :=
    foldl (fun g elem => append g (paint_elem color elem))
          body_group old_children in
  let root := append root body_group in
  new_root ← lift (make_square root);
  ET_write filename new_root;;
  print ("Created " ++ filename).

Definition create_tray_layers : M unit :=
  create_tray_body "tray_body.svg" "white";;
  create_tray_body "tray_body_black.svg" "black";;
  root_pads ← load_canonical;
  let root_pads := with_children root_pads [] in
  let pads_g := create_pads "black" in
  let root_pads := append root_pads pads_g in
  new_root_pads ← lift (make_square root_pads);
  ET_write "tray_pads.svg" new_root_pads;;
  print "Created tray_pads.svg".

(** [subprocess.run(cmd, check=True)]. *)
Definition subprocess_run (cmd : list string) : M unit := fun w =>
  let '(outcome, files) := run_process cmd w in
  let w' := mkWorld files (stdout w) (calls w ++ [(cmd, outcome)]) in
  match outcome with
  | Exited 0 => (w', Ok tt)
  | Exited returncode => (w', Raise (CalledProcessError returncode cmd))
  | SpawnError e => (w', Raise (OS e))
  end.

Definition render_svg (svg_path png_path : string) : M unit :=
  try_except
    (subprocess_run ["magick"; "-background"; "none"; svg_path; png_path];;
     print ("Rendered " ++ png_path))
    (fun e =>
       match e with
       | CalledProcessError _ _ =>
           Some (print ("Error rendering " ++ svg_path ++ ": " ++ str_exn e))
       | _ => None
       end).

Definition composite_tray_icon (body_png pads_png output_png : string) : M unit :=
  try_except
    (subprocess_run
       ["magick"; body_png; pads_png; "-compose"; "DstOut"; "-composite";
        output_png];;
     print ("Composited " ++ output_png))
    (fun e =>
       match e with
       | CalledProcessError _ _ =>
           Some (print ("Error compositing " ++ output_png ++ ": "
                        ++ str_exn e))
       | _ => None
       end).

(** The line [cleanup_temp_files] prints for a file it removed. *)
Definition removed_line (f : string) : string := "Removed temp file " ++ f.

Fixpoint cleanup_temp_files (files : list string) : M unit :=
  match files with
  | [] => mret tt
  | f :: files' =>
      present ← os_path_exists f;
      (if present : bool
       then os_remove f;; print ("Removed temp file " ++ f)
       else mret tt);;
      cleanup_temp_files files'
  end.

Definition temp_files : list string :=
  [ "app_icon.svg"; "tray_body.svg"; "tray_body.png";
    "tray_body_black.svg"; "tray_body_black.png";
    "tray_pads.svg"; "tray_pads.png" ].

(** The [__main__] block. *)
Definition main : M unit :=
  create_app_icon;;
  create_tray_layers;;
  render_svg "app_icon.svg" "../../assets/app_icon.png";;
  render_svg "tray_body.svg" "tray_body.png";;
  render_svg "tray_body_black.svg" "tray_body_black.png";;
  render_svg "tray_pads.svg" "tray_pads.png";;
  composite_tray_icon "tray_body.png" "tray_pads.png"
                      "../../assets/tray_icon.png";;
  composite_tray_icon "tray_body_black.png" "tray_pads.png"
                      "../../assets/tray_icon_black.png";;
  cleanup_temp_files temp_files;;
  print "Icon generation complete.".

(** *** The stages that call the external process

    The six calls of the [__main__] block, as data: what each runs and
    what it prints. *)
Inductive stage :=
  | Render (svg_path png_path : string)
  | Composite (body_png pads_png output_png : string).

Definition stage_cmd (st : stage) : list string :=
  match st with
  | Render svg_path png_path =>
      ["magick"; "-background"; "none"; svg_path; png_path]
  | Composite body_png pads_png output_png =>
      ["magick"; body_png; pads_png; "-compose"; "DstOut"; "-composite";
       output_png]
  end.

Definition run_stage (st : stage) : M unit :=
  match st with
  | Render svg_path png_path => render_svg svg_path png_path
  | Composite body_png pads_png output_png =>
      composite_tray_icon body_png pads_png output_png
  end.

(** The line a stage prints when its process exits with [returncode]:
    the confirmation for status 0, else the error with the path and the
    text of the [CalledProcessError]. *)
Definition stage_line (st : stage) (returncode : Z) : string :=
  let e := CalledProcessError returncode (stage_cmd st) in
  match st with
  | Render svg_path png_path =>
      if decide (returncode = 0%Z) then "Rendered " ++ png_path
      else "Error rendering " ++ svg_path ++ ": " ++ str_exn e
  | Composite body_png pads_png output_png =>
      if decide (returncode = 0%Z) then "Composited " ++ output_png
      else "Error compositing " ++ output_png ++ ": " ++ str_exn e
  end.

Definition pipeline : list stage :=
  [ Render "app_icon.svg" "../../assets/app_icon.png";
    Render "tray_body.svg" "tray_body.png";
    Render "tray_body_black.svg" "tray_body_black.png";
    Render "tray_pads.svg" "tray_pads.png";
    Composite "tray_body.png" "tray_pads.png" "../../assets/tray_icon.png";
    Composite "tray_body_black.png" "tray_pads.png"
              "../../assets/tray_icon_black.png" ].

(** The stages of a list in order, then [k]. *)
Definition run_stages_then (l : list stage) (k : M unit) : M unit :=
  foldr (fun st k => run_stage st;; k) k l.

(** The lines the document builders print. *)
Definition created_lines : list string :=
  [ "Created app_icon.svg"; "Created tray_body.svg";
    "Created tray_body_black.svg"; "Created tray_pads.svg" ].

(** *** Further notions used by the properties below *)

(** Line 66 of [make_square]: the words of the [viewBox] attribute, or of
    the default when the root has none. *)
Definition viewBox_words (root : Element) : list string :=
  split (default "0 0 401.98 559.472" (attrib root !! "viewBox")).

(** A text of ASCII characters without any separator of [str.split()]. *)
Fixpoint no_space (s : string) : bool :=
  match s with
  | EmptyString => true
  | String c s' =>
      (nat_of_ascii c <? 128)%nat && negb (is_space c) && no_space s'
  end.


(** Lines 74-89 of [make_square] once the numbers are known: the new root
    around the group that holds [content]. *)
Definition squared (w h : pyfloat) (content : list Element) : Element :=
  let '(target_dim, dx, dy) := square_geometry w h in
  mkElement svg_svg
    (list_to_map
       [ ("viewBox", "0 0 " ++ str_of_float target_dim ++ " "
                     ++ str_of_float target_dim);
         ("width", str_of_float target_dim);
         ("height", str_of_float target_dim);
         ("version", "1.1") ])
    None None
    [ mkElement svg_g
        {[ "transform" := "translate(" ++ str_of_float dx ++ ", "
                          ++ str_of_float dy ++ ")" ]}
        None None content ].

(** Lines 119-150 of [create_tray_body]: the group of painted children. *)
Definition body_group (color : string) (root : Element) : Element :=
  mkElement svg_g ∅ None None (map (paint_elem color) (children root)).



(** No listed path is refused by the operating system. *)
Definition removable (files : list string) : Prop :=
  forall p w0, p ∈ files -> remove_error p w0 = None.

(** The deliverables of the [__main__] block. *)
Definition assets : list string :=
  [ "../../assets/app_icon.png"; "../../assets/tray_icon.png";
    "../../assets/tray_icon_black.png" ].

(** Induction on element trees, with the property at hand for every
    child. *)
Fixpoint Element_nested_ind (P : Element -> Prop)
    (step : forall t a tx tl ch,
        Forall P ch -> P (mkElement t a tx tl ch))
    (e : Element) {struct e} : P e :=
  match e with
  | mkElement t a tx tl ch =>
      step t a tx tl ch
        ((fix children_ind (l : list Element) : Forall P l :=
            match l with
            | [] => Forall_nil_2 P
            | c :: l' =>
                Forall_cons_2 P c l' (Element_nested_ind P step c)
                              (children_ind l')
            end) ch)
  end.

(** ** The monad: auxiliary facts *)

Lemma bind_ok {A B} (m : M A) (f : A -> M B) (w w' : World) (a : A) :
  m w = (w', Ok a) -> (m ≫= f) w = f a w'.
Proof. unfold mbind, M_bind. by intros ->. Qed.

Lemma bind_raise {A B} (m : M A) (f : A -> M B) (w w' : World) (e : exn) :
  m w = (w', Raise e) -> (m ≫= f) w = (w', Raise e).
Proof. unfold mbind, M_bind. by intros ->. Qed.

(** ** Element trees: auxiliary facts *)

Lemma foldl_append_map {A} (f : A -> Element) (l : list A) (e : Element) :
  foldl (fun g a => append g (f a)) e l
  = with_children e (children e ++ map f l).
Proof.
  revert e. induction l as [|a l IH]; intros e; simpl.
  - rewrite app_nil_r. by destruct e.
  - rewrite IH. unfold with_children, append; simpl.
    by rewrite <- app_assoc.
Qed.

Lemma foldl_append (l : list Element) (e : Element) :
  foldl append e l = with_children e (children e ++ l).
Proof.
  rewrite <- (map_id l) at 2. apply (foldl_append_map (fun a => a)).
Qed.

Lemma subelement_paint_sub (color : string) (p : list nat) (e : Element) :
  subelement p (paint_sub color e) = paint_sub color <$> subelement p e.
Proof.
  revert e. induction p as [|i p IH]; intros e; [done|].
  destruct e as [t a tx tl ch]; simpl.
  change (map (paint_sub color) ch) with (paint_sub color <$> ch).
  rewrite list_lookup_fmap. destruct (ch !! i) as [c|]; simpl; [apply IH|done].
Qed.

Lemma subelement_update_blue (p : list nat) (e : Element) :
  subelement p (update_blue e) = update_blue <$> subelement p e.
Proof.
  revert e. induction p as [|i p IH]; intros e; [done|].
  destruct e as [t a tx tl ch]; simpl.
  change (map update_blue ch) with (update_blue <$> ch).
  rewrite list_lookup_fmap. destruct (ch !! i) as [c|]; simpl; [apply IH|done].
Qed.

(** What [paint] does to the attributes of one element. *)
Lemma paint_attrib (color : string) (e : Element) :
  tag (paint color e) = tag e
  /\ (attrib e !! "fill" <> Some "none" ->
      attrib (paint color e) !! "fill" = Some color)
  /\ (attrib e !! "fill" = Some "none" ->
      attrib (paint color e) !! "fill" = Some "none")
  /\ (is_Some (attrib e !! "stroke") ->
      attrib (paint color e) !! "stroke" = Some color)
  /\ (attrib e !! "stroke" = None ->
      attrib (paint color e) !! "stroke" = None)
  /\ (forall k, k <> "fill" -> k <> "stroke" ->
      attrib (paint color e) !! k = attrib e !! k).
Proof.
  destruct e as [t a tx tl ch]. unfold paint, has_fill, set; simpl.
  destruct (a !! "fill") as [v|] eqn:Hf; simpl;
    [destruct (bool_decide_reflect (v <> "none")) as [Hv|Hv]; simpl;
     [|apply dec_stable in Hv; subst v]|];
    rewrite ?lookup_insert_ne by done;
    destruct (decide (is_Some (a !! "stroke"))) as [Hs|Hs]; simpl;
    repeat split; intros; simplify_map_eq; try done;
    try (by apply eq_None_not_Some);
    try (exfalso; match goal with
                  | H : ?x = None, H' : is_Some ?x |- _ =>
                      rewrite H in H'; by destruct H'
                  end).
Qed.

Lemma paint_sub_attrib (color : string) (e : Element) :
  attrib (paint_sub color e) = attrib (paint color e)
  /\ tag (paint_sub color e) = tag (paint color e).
Proof. by destruct e. Qed.

(** What [go_blue] does to one element. *)
Lemma upper_caseless (s t : string) :
  upper t = t -> (upper s = t <-> caseless_eq s t).
Proof.
  revert t. induction s as [|a s IH]; intros [|b t]; simpl; try done.
  intros Ht. injection Ht as Hb Ht. rewrite <- (IH t Ht).
  unfold same_letter. split.
  - intros H. injection H as Ha Hs. auto.
  - intros [[Hab|[Hab|Hab]] Hs]; f_equal; try done; congruence.
Qed.

(** The strings that equal ['#6AD7E5'] up to letter case are its eight
    spellings. *)
Ltac letter_cases a :=
  unfold same_letter; split;
  [ destruct a as [[] [] [] [] [] [] [] []]; vm_compute;
    (intros [H|[H|H]]; first [discriminate H | by left | by right])
  | intros [->| ->]; vm_compute; auto ].

Lemma same_letter_A (a : ascii) :
  same_letter a "A" <-> a = "A"%char \/ a = "a"%char.
Proof. letter_cases a. Qed.

Lemma same_letter_D (a : ascii) :
  same_letter a "D" <-> a = "D"%char \/ a = "d"%char.
Proof. letter_cases a. Qed.

Lemma same_letter_E (a : ascii) :
  same_letter a "E" <-> a = "E"%char \/ a = "e"%char.
Proof. letter_cases a. Qed.

Lemma same_letter_other (a b : ascii) :
  upper_ascii b = b ->
  (forall c, upper_ascii c = b -> c = b) ->
  same_letter a b <-> a = b.
Proof.
  intros Hb Hc. unfold same_letter. split; [|auto].
  intros [H|[H|H]]; [done|by apply Hc|by rewrite Hb in H].
Qed.

Lemma upper_ascii_hash (c : ascii) : upper_ascii c = "#"%char -> c = "#"%char.
Proof.
  destruct c as [[] [] [] [] [] [] [] []]; vm_compute; intros H;
    first [discriminate H | reflexivity].
Qed.

Lemma upper_ascii_digit (c d : ascii) :
  (48 <= nat_of_ascii d <= 57)%nat -> upper_ascii c = d -> c = d.
Proof.
  intros Hd <-.
  destruct c as [[] [] [] [] [] [] [] []]; vm_compute in Hd |- *;
    first [reflexivity | lia].
Qed.

Lemma caseless_blue (v : string) :
  caseless_eq v "#6AD7E5"
  <-> exists a d e,
      (a = "A" \/ a = "a")%char /\ (d = "D" \/ d = "d")%char
      /\ (e = "E" \/ e = "e")%char
      /\ v = String "#" (String "6" (String a (String d (String "7"
               (String e (String "5" EmptyString)))))).
Proof.
  clear float_of_str str_of_float run_process str_exn remove_error.
  destruct v as [|c0 [|c1 [|c2 [|c3 [|c4 [|c5 [|c6 [|c7 v]]]]]]]]; simpl;
    try (split; [tauto | intros (a & d & e & _ & _ & _ & H); discriminate H]).
  rewrite same_letter_A, same_letter_D, same_letter_E.
  rewrite (same_letter_other c0 "#")
    by (first [reflexivity | apply upper_ascii_hash]).
  rewrite (same_letter_other c1 "6"), (same_letter_other c4 "7"),
    (same_letter_other c6 "5")
    by (first [reflexivity
              | intros c; apply upper_ascii_digit; vm_compute; lia]).
  split.
  - intros (-> & -> & Ha & Hd & -> & He & -> & _). by exists c2, c3, c5.
  - intros (a & d & e & Ha & Hd & He & H).
    injection H as -> -> -> -> -> -> ->. tauto.
Qed.

Lemma go_blue_attrib (e : Element) :
  tag (go_blue e) = tag e
  /\ (forall v, attrib e !! "fill" = Some v -> caseless_eq v "#6AD7E5" ->
      attrib (go_blue e) = <["fill" := "#00ADD8"]> (attrib e))
  /\ (forall v, attrib e !! "fill" = Some v -> ~ caseless_eq v "#6AD7E5" ->
      attrib (go_blue e) = attrib e)
  /\ (attrib e !! "fill" = None -> attrib (go_blue e) = attrib e)
  /\ (forall k, k <> "fill" -> attrib (go_blue e) !! k = attrib e !! k).
Proof.
  destruct e as [t a tx tl ch]. unfold go_blue, set; simpl.
  destruct (a !! "fill") as [v|] eqn:Hf; simpl;
    [destruct (decide (upper v = "#6AD7E5")) as [Hv|Hv]; simpl;
     rewrite (upper_caseless v "#6AD7E5" eq_refl) in Hv|];
    repeat split; intros; simplify_map_eq; done.
Qed.

Lemma update_blue_attrib (e : Element) :
  attrib (update_blue e) = attrib (go_blue e)
  /\ tag (update_blue e) = tag (go_blue e).
Proof. by destruct e. Qed.

(** ** Squaring: auxiliary facts *)

Lemma viewBox_numbers_attrib (r1 r2 : Element) :
  attrib r1 !! "viewBox" = attrib r2 !! "viewBox" ->
  viewBox_numbers r1 = viewBox_numbers r2.
Proof. unfold viewBox_numbers. by intros ->. Qed.

Lemma make_square_numbers (root : Element) (x y w h : pyfloat) :
  viewBox_numbers root = Some [x; y; w; h] ->
  exists out,
    make_square root = Ok out
    /\ is_square_canvas out (max_float w h)
         (float_half (float_sub (max_float w h) w))
         (float_half (float_sub (max_float w h) h))
         (children root).
Proof.
  intros Hvb. unfold make_square. rewrite Hvb. simpl.
  eexists. split; [reflexivity|].
  rewrite foldl_append. unfold is_square_canvas, append, ET_Element; simpl.
  repeat split; try done. eexists. repeat split; simpl; done.
Qed.

Lemma is_finite_value (a : pyfloat) :
  is_finite a <-> exists q, finite_value a = Some q.
Proof.
  destruct a; simpl; split; try done; eauto; by intros [? ?].
Qed.

Lemma max_float_cases (a b : pyfloat) :
  max_float a b = a \/ max_float a b = b.
Proof. unfold max_float. destruct (float_ltb a b); eauto. Qed.

Lemma float_ltb_finite (a b : pyfloat) (p q : Qc) :
  finite_value a = Some p -> finite_value b = Some q ->
  float_ltb a b = bool_decide (p < q)%Qc.
Proof.
  destruct a, b; simpl; intros Ha Hb; try discriminate;
    injection Ha as <-; injection Hb as <-; reflexivity.
Qed.


Lemma max_float_value (a b : pyfloat) (p q : Qc) :
  finite_value a = Some p -> finite_value b = Some q ->
  finite_value (max_float a b) = Some (max_finite p q).
Proof.
  intros Ha Hb. unfold max_float, max_finite.
  rewrite (float_ltb_finite a b p q Ha Hb).
  destruct (decide (p < q)%Qc) as [H|H].
  - by rewrite bool_decide_eq_true_2.
  - by rewrite bool_decide_eq_false_2.
Qed.

Lemma max_finite_spec (w h : Qc) :
  (w <= max_finite w h)%Qc /\ (h <= max_finite w h)%Qc
  /\ (max_finite w h = w \/ max_finite w h = h).
Proof.
  unfold max_finite. destruct (decide (w < h)%Qc) as [H|H].
  - split; [by apply Qclt_le_weak|]. split; [apply Qcle_refl|by right].
  - split; [apply Qcle_refl|]. split; [by apply Qcnot_lt_le|by left].
Qed.

Lemma max_finite_le (w h : Qc) : (w <= h)%Qc -> max_finite w h = h.
Proof.
  intros Hwh. unfold max_finite.
  destruct (decide (w < h)%Qc) as [|Hn]; [done|].
  apply Qcnot_lt_le in Hn. by apply Qcle_antisym.
Qed.

Lemma max_finite_ge (w h : Qc) : (h <= w)%Qc -> max_finite w h = w.
Proof.
  intros Hhw. unfold max_finite.
  destruct (decide (w < h)%Qc) as [Hlt|]; [|done].
  by apply Qcle_not_lt in Hhw.
Qed.

Lemma sub_self (w : Qc) : (w - w = 0)%Qc.
Proof. ring. Qed.

Lemma half_zero : (0 / two = 0)%Qc.
Proof. by apply Qc_is_canon. Qed.

Lemma sub_self_half (w : Qc) : ((w - w) / two = 0)%Qc.
Proof. unfold two. field. done. Qed.

Lemma overflow_bound_pos : (0 < overflow_bound)%Qc.
Proof. by vm_compute. Qed.

Lemma Qcopp_lt (p q : Qc) : (p < q)%Qc -> (- q < - p)%Qc.
Proof.
  intros H. apply Qclt_minus_iff. apply Qclt_minus_iff in H.
  by replace (- p + - - q)%Qc with (q + - p)%Qc by ring.
Qed.

Lemma no_overflow_zero : no_overflow 0%Qc.
Proof.
  split; [|apply overflow_bound_pos].
  pose proof overflow_bound_pos as H. apply Qcopp_lt in H.
  by replace (- 0)%Qc with 0%Qc in H by (by apply Qc_is_canon).
Qed.

Lemma no_overflow_opp (q : Qc) : no_overflow q -> no_overflow (- q).
Proof.
  intros [H1 H2]. split.
  - by apply Qcopp_lt.
  - apply Qcopp_lt in H1. by rewrite Qcopp_involutive in H1.
Qed.

(** Within the range, the float of a result is the result. *)
Lemma round_range_no_overflow (q : Qc) :
  no_overflow q -> round_range q = Fin q.
Proof.
  intros [H1 H2]. unfold round_range.
  destruct (decide (overflow_bound <= q)%Qc) as [H|_].
  { exfalso. by apply (Qcle_not_lt _ _ H). }
  destruct (decide (q <= - overflow_bound)%Qc) as [H|_]; [|done].
  exfalso. by apply (Qcle_not_lt _ _ H).
Qed.

(** When it is finite at all, it is the result. *)
Lemma round_range_value (q r : Qc) :
  finite_value (round_range q) = Some r -> r = q.
Proof.
  unfold round_range. repeat case_decide; simpl; congruence.
Qed.

(** The difference of two finite floats, when it does not overflow. *)
Lemma float_sub_value (a b : pyfloat) (p q : Qc) :
  finite_value a = Some p -> finite_value b = Some q ->
  no_overflow (p - q) ->
  finite_value (float_sub a b) = Some (p - q)%Qc.
Proof.
  destruct a as [p'| | |], b as [q'| | |]; simpl; intros Ha Hb Hpq;
    try discriminate; injection Ha as <-; injection Hb as <-.
  - by rewrite round_range_no_overflow.
  - simpl. f_equal; ring.
  - destruct (decide (q' = 0%Qc)) as [->|_]; simpl; f_equal; ring.
  - f_equal; ring.
Qed.

(** A difference that is finite is the exact one. *)
Lemma float_sub_value_inv (a b : pyfloat) (r : Qc) :
  finite_value (float_sub a b) = Some r ->
  exists p q,
    finite_value a = Some p /\ finite_value b = Some q /\ r = (p - q)%Qc.
Proof.
  destruct a as [p| |s|], b as [q| |t|]; simpl; intros Hr;
    try discriminate.
  - apply round_range_value in Hr. by exists p, q.
  - injection Hr as <-. exists p, 0%Qc. repeat split; ring.
  - exists 0%Qc, q. split; [done|]. split; [done|].
    destruct (decide (q = 0%Qc)) as [->|_]; simpl in Hr;
      injection Hr as <-; ring.
  - injection Hr as <-. exists 0%Qc, 0%Qc. repeat split; ring.
  - destruct (Bool.eqb s t); discriminate.
Qed.

Lemma float_half_value (a : pyfloat) (p : Qc) :
  finite_value a = Some p ->
  finite_value (float_half a) = Some (p / two)%Qc.
Proof.
  destruct a; simpl; intros Ha; try discriminate; injection Ha as <-;
    [done|]. by rewrite half_zero.
Qed.

Lemma float_half_value_inv (a : pyfloat) (r : Qc) :
  finite_value (float_half a) = Some r ->
  exists p, finite_value a = Some p /\ r = (p / two)%Qc.
Proof.
  destruct a as [p| |s|]; simpl; intros Hr; try discriminate;
    injection Hr as <-; eexists; split; try done.
  by rewrite half_zero.
Qed.

(** The difference of a finite float with itself is [0.0]. *)
Lemma float_sub_self (a : pyfloat) :
  is_finite a -> float_sub a a = Fin 0%Qc.
Proof.
  destruct a as [w| | |]; simpl; try done. intros _.
  rewrite sub_self. apply round_range_no_overflow, no_overflow_zero.
Qed.

Lemma centered_axis (x s w : Qc) :
  (x + (s - w) / two + w / two = s / two)%Qc <-> x = 0%Qc.
Proof.
  unfold two. split; intros H.
  - assert (x = s / (1 + 1) - ((s - w) / (1 + 1) + w / (1 + 1)))%Qc
      as -> by (rewrite <- H; ring).
    field. done.
  - subst. field. done.
Qed.

Lemma square_geometry_eq (w h : pyfloat) :
  square_geometry w h
  = (max_float w h, float_half (float_sub (max_float w h) w),
     float_half (float_sub (max_float w h) h)).
Proof. reflexivity. Qed.

(** The values of the geometry of a canvas of finite sizes whose
    difference does not overflow. *)
Lemma square_geometry_value (w h : pyfloat) (wq hq : Qc) :
  finite_value w = Some wq -> finite_value h = Some hq ->
  no_overflow (wq - hq) ->
  finite_value (max_float w h) = Some (max_finite wq hq)
  /\ finite_value (float_half (float_sub (max_float w h) w))
     = Some ((max_finite wq hq - wq) / two)%Qc
  /\ finite_value (float_half (float_sub (max_float w h) h))
     = Some ((max_finite wq hq - hq) / two)%Qc.
Proof.
  intros Hw Hh Hwh.
  pose proof (max_float_value w h wq hq Hw Hh) as Hmax.
  assert (no_overflow (max_finite wq hq - wq)
          /\ no_overflow (max_finite wq hq - hq)) as [Hdx Hdy].
  { destruct (max_finite_spec wq hq) as (_ & _ & [-> | ->]).
    - rewrite sub_self. split; [apply no_overflow_zero|done].
    - rewrite sub_self. split; [|apply no_overflow_zero].
      apply no_overflow_opp in Hwh.
      by replace (- (wq - hq))%Qc with (hq - wq)%Qc in Hwh by ring. }
  split; [done|]. split; apply float_half_value; by apply float_sub_value.
Qed.

(** Being centred, in terms of the values. *)
Lemma centered_values (x y w h side dx dy : pyfloat) :
  centered x y w h side dx dy
  <-> exists xq yq wq hq sq dxq dyq,
      finite_value x = Some xq /\ finite_value y = Some yq
      /\ finite_value w = Some wq /\ finite_value h = Some hq
      /\ finite_value side = Some sq
      /\ finite_value dx = Some dxq /\ finite_value dy = Some dyq
      /\ centered_finite xq yq wq hq sq dxq dyq.
Proof.
  clear float_of_str str_of_float run_process str_exn remove_error.
  unfold centered.
  destruct (finite_value x) as [xq|];
    [|split; [done|by intros (?&?&?&?&?&?&?&?&?)]].
  destruct (finite_value y) as [yq|];
    [|split; [done|by intros (?&?&?&?&?&?&?&?&?&?)]].
  destruct (finite_value w) as [wq|];
    [|split; [done|by intros (?&?&?&?&?&?&?&?&?&?&?)]].
  destruct (finite_value h) as [hq|];
    [|split; [done|by intros (?&?&?&?&?&?&?&?&?&?&?&?)]].
  destruct (finite_value side) as [sq|];
    [|split; [done|by intros (?&?&?&?&?&?&?&?&?&?&?&?&?)]].
  destruct (finite_value dx) as [dxq|];
    [|split; [done|by intros (?&?&?&?&?&?&?&?&?&?&?&?&?&?)]].
  destruct (finite_value dy) as [dyq|];
    [|split; [done|by intros (?&?&?&?&?&?&?&?&?&?&?&?&?&?&?)]].
  split.
  - intros Hc. by exists xq, yq, wq, hq, sq, dxq, dyq.
  - intros (?&?&?&?&?&?&?&?&?&?&?&?&?&?&Hc). by simplify_eq.
Qed.

(** The artwork is centred exactly when the origin is [(0, 0)] and the
    sizes and offsets are finite. *)
Lemma centered_iff_origin (x y w h : pyfloat) :
  centered x y w h (max_float w h)
           (float_half (float_sub (max_float w h) w))
           (float_half (float_sub (max_float w h) h))
  <-> finite_value x = Some 0%Qc /\ finite_value y = Some 0%Qc
      /\ is_finite w /\ is_finite h
      /\ is_finite (float_half (float_sub (max_float w h) w))
      /\ is_finite (float_half (float_sub (max_float w h) h)).
Proof.
  clear float_of_str str_of_float run_process str_exn remove_error.
  rewrite centered_values. split.
  - intros (xq & yq & wq & hq & sq & dxq & dyq
            & Hx & Hy & Hw & Hh & Hs & Hdx & Hdy & Hcx & Hcy).
    apply float_half_value_inv in Hdx as Hdx'.
    destruct Hdx' as (ddx & Hddx & ->).
    apply float_sub_value_inv in Hddx as (s1 & w1 & Hs1 & Hw1 & ->).
    apply float_half_value_inv in Hdy as Hdy'.
    destruct Hdy' as (ddy & Hddy & ->).
    apply float_sub_value_inv in Hddy as (s2 & h2 & Hs2 & Hh2 & ->).
    simplify_eq. apply centered_axis in Hcx, Hcy. subst.
    repeat split; try done; apply is_finite_value; eauto.
  - intros (Hx & Hy & Hw & Hh & Hdx & Hdy).
    apply is_finite_value in Hw as [wq Hw], Hh as [hq Hh].
    apply is_finite_value in Hdx as [dxq Hdx], Hdy as [dyq Hdy].
    exists 0%Qc, 0%Qc, wq, hq, (max_finite wq hq), dxq, dyq.
    pose proof (max_float_value w h wq hq Hw Hh) as Hs.
    repeat (split; [done|]).
    apply float_half_value_inv in Hdx as (ddx & Hddx & ->).
    apply float_sub_value_inv in Hddx as (s1 & w1 & Hs1 & Hw1 & ->).
    apply float_half_value_inv in Hdy as (ddy & Hddy & ->).
    apply float_sub_value_inv in Hddy as (s2 & h2 & Hs2 & Hh2 & ->).
    simplify_eq. split; by apply centered_axis.
Qed.

(** The result of [make_square] is fixed by the last two numbers of the
    [viewBox] and by the children. *)
Lemma make_square_width_height (r1 r2 : Element)
      (x1 y1 x2 y2 w h : pyfloat) :
  viewBox_numbers r1 = Some [x1; y1; w; h] ->
  viewBox_numbers r2 = Some [x2; y2; w; h] ->
  children r1 = children r2 ->
  make_square r1 = make_square r2.
Proof.
  intros H1 H2 Hch. unfold make_square. by rewrite H1, H2, Hch.
Qed.

(** ** Canvas squaring *)

(** C2, amended: for every root whose [viewBox] reads as [(x, y, w, h)]
    with finite [w] and [h] whose difference does not overflow,
    [make_square] returns a new root whose [viewBox], [width] and
    [height] carry the side [max(w, h)], with the original children in one
    group translated by [((max(w,h)-w)/2, (max(w,h)-h)/2)]; the shorter
    axis, whichever it is, gets the padding; the artwork is centred in
    the square when the origin of the [viewBox] is [(0, 0)]; and for
    [(0, 0, 400, 600)] the side is 600 and the offset [(100, 0)]. *)
Theorem make_square_canvas (root : Element) (x y w h : pyfloat)
        (wq hq : Qc) :
  viewBox_numbers root = Some [x; y; w; h] ->
  finite_value w = Some wq -> finite_value h = Some hq ->
  no_overflow (wq - hq) ->
  exists out side dx dy (sq dxq dyq : Qc),
    make_square root = Ok out
    /\ square_geometry w h = (side, dx, dy)
    /\ is_square_canvas out side dx dy (children root)
    /\ (side = w \/ side = h)
    /\ finite_value side = Some sq
    /\ finite_value dx = Some dxq /\ finite_value dy = Some dyq
    /\ ((wq <= sq)%Qc /\ (hq <= sq)%Qc /\ (sq = wq \/ sq = hq))
    /\ dxq = ((sq - wq) / two)%Qc /\ dyq = ((sq - hq) / two)%Qc
    /\ ((wq <= hq)%Qc -> sq = hq /\ dyq = 0%Qc)
    /\ ((hq <= wq)%Qc -> sq = wq /\ dxq = 0%Qc)
    /\ (finite_value x = Some 0%Qc -> finite_value y = Some 0%Qc ->
        centered x y w h side dx dy)
    /\ (w = Fin (Qc_of_Z 400) -> h = Fin (Qc_of_Z 600) ->
        side = Fin (Qc_of_Z 600) /\ dx = Fin (Qc_of_Z 100)
        /\ dy = Fin 0%Qc).
Proof.
  intros Hvb Hw Hh Hwh.
  destruct (make_square_numbers root x y _ _ Hvb) as (out & Hout & Hcanvas).
  destruct (square_geometry_value w h wq hq Hw Hh Hwh)
    as (Hside & Hdx & Hdy).
  exists out, (max_float w h), (float_half (float_sub (max_float w h) w)),
    (float_half (float_sub (max_float w h) h)), (max_finite wq hq),
    ((max_finite wq hq - wq) / two)%Qc, ((max_finite wq hq - hq) / two)%Qc.
  split; [done|]. split; [apply square_geometry_eq|]. split; [done|].
  split; [apply max_float_cases|].
  split; [done|]. split; [done|]. split; [done|].
  split; [apply max_finite_spec|]. split; [done|]. split; [done|].
  split; [|split; [|split]].
  - intros Hle. rewrite (max_finite_le wq hq Hle). by rewrite sub_self_half.
  - intros Hle. rewrite (max_finite_ge wq hq Hle). by rewrite sub_self_half.
  - intros Hx Hy. apply centered_iff_origin.
    repeat split; try done; apply is_finite_value; eauto.
  - intros -> ->.
    assert (max_float (Fin (Qc_of_Z 400)) (Fin (Qc_of_Z 600))
            = Fin (Qc_of_Z 600)) as -> by reflexivity.
    split; [done|]. split.
    + simpl. f_equal. by apply Qc_is_canon.
    + rewrite float_sub_self by done. simpl. by rewrite half_zero.
Qed.


(** C9: for a [viewBox] [(x, y, w, h)] with [x] or [y] different from
    zero, the new [viewBox] still starts at [0 0], the translation and the
    whole result depend on [w], [h] and the children only, the children
    are passed on as they are, and so the artwork is not centred: it is
    centred exactly when the origin is [(0, 0)], the sizes and offsets
    being finite. *)
Theorem make_square_discards_origin (root : Element) (x y w h : pyfloat) :
  viewBox_numbers root = Some [x; y; w; h] ->
  finite_value x <> Some 0%Qc \/ finite_value y <> Some 0%Qc ->
  exists out side dx dy,
    make_square root = Ok out
    /\ square_geometry w h = (side, dx, dy)
    /\ is_square_canvas out side dx dy (children root)
    /\ (forall root' x' y',
          viewBox_numbers root' = Some [x'; y'; w; h] ->
          children root' = children root ->
          make_square root' = Ok out)
    /\ ~ centered x y w h side dx dy
    /\ (forall x' y',
          centered x' y' w h side dx dy
          <-> finite_value x' = Some 0%Qc /\ finite_value y' = Some 0%Qc
              /\ is_finite w /\ is_finite h
              /\ is_finite dx /\ is_finite dy).
Proof.
  intros Hvb Hxy. destruct (make_square_numbers root x y w h Hvb) as (out & Hout & Hcanvas).
  exists out, (max_float w h), (float_half (float_sub (max_float w h) w)),
    (float_half (float_sub (max_float w h) h)).
  split; [done|]. split; [apply square_geometry_eq|]. split; [done|].
  split; [|split].
  - intros root' x' y' Hvb' Hch. rewrite <- Hout.
    by apply (make_square_width_height root' root x' y' x y w h).
  - rewrite centered_iff_origin. intros (? & ? & _). by destruct Hxy.
  - intros x' y'. apply centered_iff_origin.
Qed.

(** ** Runs of the document builders *)

Lemma paint_elem_sub (color : string) (e : Element) :
  paint_elem color e = paint_sub color e.
Proof. by destruct e. Qed.

(** The document [create_tray_body] hands to [make_square]. *)
Lemma create_tray_body_run (w : World) (root : Element)
      (filename color : string) (x y vw vh : pyfloat) :
  fs w !! CANONICAL_PATH = Some (SvgFile root) ->
  viewBox_numbers root = Some [x; y; vw; vh] ->
  exists new_root g body_group,
    create_tray_body filename color w
    = (mkWorld (<[filename := SvgFile new_root]> (fs w))
               (stdout w ++ ["Created " ++ filename]) (calls w), Ok tt)
    /\ children new_root = [g]
    /\ children g = [body_group]
    /\ children body_group = map (paint_sub color) (children root).
Proof.
  intros Hfile Hvb.
  set (doc := append (with_children root [])
                (foldl (fun g elem => append g (paint_elem color elem))
                       (ET_Element svg_g ∅) (children root))).
  assert (viewBox_numbers doc = Some [x; y; vw; vh]) as Hvb'.
  { rewrite <- Hvb. by apply viewBox_numbers_attrib. }
  destruct (make_square_numbers doc x y vw vh Hvb')
    as (out & Hout & _ & _ & _ & _ & g & Hg & _ & _ & Hch).
  exists out, g, (with_children (ET_Element svg_g ∅)
                    (map (paint_elem color) (children root))).
  split; [|split; [done|split]].
  - unfold create_tray_body, load_canonical, ET_parse, mbind, M_bind, lift.
    rewrite Hfile. fold doc. by rewrite Hout.
  - rewrite Hch. unfold doc. by rewrite foldl_append_map.
  - simpl. apply map_ext. intros e. apply paint_elem_sub.
Qed.

(** The document [create_app_icon] hands to [make_square]. *)
Lemma create_app_icon_run (w : World) (root : Element) (x y vw vh : pyfloat) :
  fs w !! CANONICAL_PATH = Some (SvgFile root) ->
  viewBox_numbers root = Some [x; y; vw; vh] ->
  exists new_root g,
    create_app_icon w
    = (mkWorld (<[APP_ICON_PATH := SvgFile new_root]> (fs w))
               (stdout w ++ ["Created " ++ APP_ICON_PATH]) (calls w), Ok tt)
    /\ children new_root = [g]
    /\ children g
       = (map update_blue (children root) ++ [create_pads "#FFFFFF"])%list.
Proof.
  intros Hfile Hvb.
  set (doc := append (update_blue root) (create_pads "#FFFFFF")).
  assert (viewBox_numbers doc = Some [x; y; vw; vh]) as Hvb'.
  { rewrite <- Hvb. apply viewBox_numbers_attrib.
    destruct (go_blue_attrib root) as (_ & _ & _ & _ & Hk).
    destruct root. by apply Hk. }
  destruct (make_square_numbers doc x y vw vh Hvb')
    as (out & Hout & _ & _ & _ & _ & g & Hg & _ & _ & Hch).
  exists out, g. split; [|split; [done|]].
  - unfold create_app_icon, load_canonical, ET_parse, mbind, M_bind, lift.
    rewrite Hfile. fold doc. by rewrite Hout.
  - rewrite Hch. unfold doc. by destruct root.
Qed.

(** ** Recolouring *)

(** C1: [create_tray_body] writes a document in which every top-level
    child of the canonical root, and every element below one, has its
    [fill] set to the silhouette colour unless its [fill] was ['none'],
    which stays, and has its [stroke], when it had one, set to the same
    colour; no other attribute changes. *)
Theorem silhouette_recolor (w : World) (root : Element)
        (filename color : string) (x y vw vh : pyfloat) :
  fs w !! CANONICAL_PATH = Some (SvgFile root) ->
  viewBox_numbers root = Some [x; y; vw; vh] ->
  exists new_root,
    create_tray_body filename color w
    = (mkWorld (<[filename := SvgFile new_root]> (fs w))
               (stdout w ++ ["Created " ++ filename]) (calls w), Ok tt)
    /\ forall (i : nat) (p : list nat) (elem : Element),
        subelement (i :: p) root = Some elem ->
        exists elem',
          subelement (0 :: 0 :: i :: p) new_root = Some elem'
          /\ tag elem' = tag elem
          /\ (attrib elem !! "fill" <> Some "none" ->
              attrib elem' !! "fill" = Some color)
          /\ (attrib elem !! "fill" = Some "none" ->
              attrib elem' !! "fill" = Some "none")
          /\ (is_Some (attrib elem !! "stroke") ->
              attrib elem' !! "stroke" = Some color)
          /\ (attrib elem !! "stroke" = None ->
              attrib elem' !! "stroke" = None)
          /\ (forall k, k <> "fill" -> k <> "stroke" ->
              attrib elem' !! k = attrib elem !! k).
Proof.
  intros Hfile Hvb.
  destruct (create_tray_body_run w root filename color x y vw vh Hfile Hvb)
    as (new_root & g & body & Hrun & Hroot & Hg & Hbody).
  exists new_root. split; [done|]. intros i p elem Hpath.
  simpl in Hpath. destruct (children root !! i) as [c|] eqn:Hc; [|done].
  exists (paint_sub color elem). split.
  - simpl. rewrite Hroot. simpl. rewrite Hg. simpl. rewrite Hbody.
    change (map (paint_sub color) (children root))
      with (paint_sub color <$> children root).
    rewrite list_lookup_fmap, Hc. simpl.
    by rewrite subelement_paint_sub, Hpath.
  - destruct (paint_sub_attrib color elem) as [-> ->].
    apply paint_attrib.
Qed.

(** C4: [create_app_icon] rewrites the [fill] of every element of the
    document, the root included, to ['#00ADD8'] when it equals ['#6AD7E5']
    up to letter case, that is in any of its eight spellings, and leaves
    every other [fill] and every other attribute as it was; the elements
    below the root reach the written document in that state. *)
Theorem app_icon_recolor (w : World) (root : Element) (x y vw vh : pyfloat) :
  fs w !! CANONICAL_PATH = Some (SvgFile root) ->
  viewBox_numbers root = Some [x; y; vw; vh] ->
  (forall v,
      caseless_eq v "#6AD7E5"
      <-> exists a d e,
          (a = "A" \/ a = "a")%char /\ (d = "D" \/ d = "d")%char
          /\ (e = "E" \/ e = "e")%char
          /\ v = String "#" (String "6" (String a (String d (String "7"
                   (String e (String "5" EmptyString)))))))
  /\ exists new_root,
    create_app_icon w
    = (mkWorld (<[APP_ICON_PATH := SvgFile new_root]> (fs w))
               (stdout w ++ ["Created " ++ APP_ICON_PATH]) (calls w), Ok tt)
    /\ forall (p : list nat) (elem : Element),
        subelement p root = Some elem ->
        exists elem',
          subelement p (update_blue root) = Some elem'
          /\ (forall i p', p = i :: p' ->
              subelement (0 :: p) new_root = Some elem')
          /\ tag elem' = tag elem
          /\ (forall v, attrib elem !! "fill" = Some v ->
              caseless_eq v "#6AD7E5" ->
              attrib elem' = <["fill" := "#00ADD8"]> (attrib elem))
          /\ (forall v, attrib elem !! "fill" = Some v ->
              ~ caseless_eq v "#6AD7E5" -> attrib elem' = attrib elem)
          /\ (attrib elem !! "fill" = None -> attrib elem' = attrib elem)
          /\ (forall k, k <> "fill" ->
              attrib elem' !! k = attrib elem !! k).
Proof.
  intros Hfile Hvb.
  split; [apply caseless_blue|].
  destruct (create_app_icon_run w root x y vw vh Hfile Hvb)
    as (new_root & g & Hrun & Hroot & Hg).
  exists new_root. split; [done|]. intros p elem Hpath.
  exists (update_blue elem). split; [|split].
  - by rewrite subelement_update_blue, Hpath.
  - intros i p' ->. simpl. rewrite Hroot. simpl. rewrite Hg.
    simpl in Hpath. destruct (children root !! i) as [c|] eqn:Hc; [|done].
    change (map update_blue (children root))
      with (update_blue <$> children root).
    rewrite lookup_app_l.
    + rewrite list_lookup_fmap, Hc. simpl.
      by rewrite subelement_update_blue, Hpath.
    + rewrite length_fmap. by apply lookup_lt_Some in Hc.
  - destruct (update_blue_attrib elem) as [-> ->].
    apply go_blue_attrib.
Qed.

(** ** Cleanup *)

Lemma removable_cons (f : string) (files : list string) :
  removable (f :: files) ->
  (forall w0, remove_error f w0 = None) /\ removable files.
Proof.
  clear float_of_str str_of_float run_process str_exn.
  intros Hrem. split.
  - intros w0. apply Hrem. apply elem_of_cons. by left.
  - intros p w0 Hp. apply Hrem. apply elem_of_cons. by right.
Qed.

(** One turn of the loop of [cleanup_temp_files]. *)
Lemma cleanup_temp_files_absent (f : string) (files : list string)
      (w : World) :
  fs w !! f = None ->
  cleanup_temp_files (f :: files) w = cleanup_temp_files files w.
Proof.
  intros Hf. simpl. unfold mbind, M_bind, os_path_exists. simpl.
  rewrite bool_decide_eq_false_2; [done|]. rewrite Hf. by intros [? ?].
Qed.

Lemma cleanup_temp_files_removed (f : string) (files : list string)
      (w : World) :
  is_Some (fs w !! f) ->
  remove_error f w = None ->
  cleanup_temp_files (f :: files) w
  = cleanup_temp_files files
      (mkWorld (delete f (fs w)) (stdout w ++ [removed_line f]) (calls w)).
Proof.
  intros Hf Hrem. simpl. unfold mbind, M_bind, os_path_exists. simpl.
  rewrite bool_decide_eq_true_2 by done.
  unfold os_remove, print. destruct Hf as [c Hc]. by rewrite Hc, Hrem.
Qed.

Lemma cleanup_temp_files_refused (f : string) (files : list string)
      (w : World) (e : OSError) :
  is_Some (fs w !! f) ->
  remove_error f w = Some e ->
  cleanup_temp_files (f :: files) w = (w, Raise (OS e)).
Proof.
  intros Hf Hrem. simpl. unfold mbind, M_bind, os_path_exists. simpl.
  rewrite bool_decide_eq_true_2 by done.
  unfold os_remove, print. destruct Hf as [c Hc]. by rewrite Hc, Hrem.
Qed.

Lemma cleanup_temp_files_run (files : list string) (w : World) :
  removable files ->
  exists (files_left : gmap string File) (removed : list string),
    cleanup_temp_files files w
    = (mkWorld files_left (stdout w ++ map removed_line removed) (calls w),
       Ok tt)
    /\ (forall p, files_left !! p
                  = if decide (p ∈ files) then None else fs w !! p)
    /\ NoDup removed
    /\ (forall p, p ∈ removed <-> p ∈ files /\ is_Some (fs w !! p))
    /\ removed `sublist_of` files.
Proof.
  clear float_of_str str_of_float run_process str_exn.
  revert w. induction files as [|f files IH]; intros w Hrem.
  - exists (fs w), []. simpl. rewrite app_nil_r. destruct w; simpl.
    split; [done|]. split; [done|]. split; [apply NoDup_nil_2|].
    split; [|done]. intros p. rewrite !elem_of_nil. tauto.
  - apply removable_cons in Hrem as [Hf0 Hrem].
    destruct (fs w !! f) as [c|] eqn:Hc.
    + rewrite cleanup_temp_files_removed by (rewrite ?Hc; eauto).
      destruct (IH (mkWorld (delete f (fs w))
                            (stdout w ++ [removed_line f])
                            (calls w)) Hrem)
        as (left & removed & Hrun & Hleft & Hnd & Hmem & Hsub).
      simpl in *. exists left, (f :: removed). rewrite Hrun.
      split; [by rewrite <- app_assoc|]. split; [|split; [|split]].
      * intros p. rewrite Hleft.
        destruct (decide (p ∈ files)) as [Hin|Hin];
          destruct (decide (p ∈ f :: files)) as [Hin'|Hin'];
          rewrite elem_of_cons in Hin'; try done.
        -- exfalso. tauto.
        -- destruct Hin' as [->|?]; [apply lookup_delete_eq|done].
        -- apply lookup_delete_ne. intros ->. tauto.
      * apply NoDup_cons. split; [|done]. rewrite Hmem.
        rewrite lookup_delete_eq. intros [_ [? ?]]. done.
      * intros p. rewrite elem_of_cons, Hmem, elem_of_cons.
        destruct (decide (p = f)) as [->|Hne].
        -- rewrite Hc. split; [eauto|tauto].
        -- rewrite lookup_delete_ne by done. tauto.
      * by apply sublist_skip.
    + rewrite cleanup_temp_files_absent by done.
      destruct (IH w Hrem) as (left & removed & Hrun & Hleft & Hnd & Hmem & Hsub).
      exists left, removed. rewrite Hrun.
      split; [done|]. split; [|split; [done|split]].
      * intros p. rewrite Hleft.
        destruct (decide (p ∈ files)) as [Hin|Hin];
          destruct (decide (p ∈ f :: files)) as [Hin'|Hin'];
          rewrite elem_of_cons in Hin'; try done.
        -- exfalso. tauto.
        -- destruct Hin' as [->|?]; [done|done].
      * intros p. rewrite Hmem, elem_of_cons. split; [tauto|].
        intros [[->|?] Hsome]; [|tauto]. rewrite Hc in Hsome.
        by destruct Hsome.
      * by apply sublist_cons.
Qed.


(** ** Runs of the stages *)

Lemma main_stages :
  main = (create_app_icon;; create_tray_layers;;
          run_stages_then pipeline
            (cleanup_temp_files temp_files;;
             print "Icon generation complete.")).
Proof. reflexivity. Qed.

(** A stage whose process exits, with whatever status, returns normally
    and prints its line. *)
Lemma run_stage_exited (st : stage) (w : World) (rc : Z) :
  (run_process (stage_cmd st) w).1 = Exited rc ->
  run_stage st w
  = (mkWorld (run_process (stage_cmd st) w).2
             (stdout w ++ [stage_line st rc])
             (calls w ++ [(stage_cmd st, Exited rc)]), Ok tt).
Proof.
  intros Hrun.
  destruct st as [svg png|body pads out]; simpl in *;
    unfold render_svg, composite_tray_icon, try_except, mbind, M_bind,
      subprocess_run, print, stage_line;
    destruct (run_process _ w) as [outcome files]; simpl in *; subst outcome;
    destruct rc; simpl; done.
Qed.

(** A stage whose process cannot be started raises the error of the
    operating system and prints nothing. *)
Lemma run_stage_spawn_error (st : stage) (w : World) (e : OSError) :
  (run_process (stage_cmd st) w).1 = SpawnError e ->
  run_stage st w
  = (mkWorld (run_process (stage_cmd st) w).2 (stdout w)
             (calls w ++ [(stage_cmd st, SpawnError e)]), Raise (OS e)).
Proof.
  intros Hrun.
  destruct st as [svg png|body pads out]; simpl in *;
    unfold render_svg, composite_tray_icon, try_except, mbind, M_bind,
      subprocess_run, print;
    destruct (run_process _ w) as [outcome files]; simpl in *; subst outcome;
    done.
Qed.

Lemma run_stages_exited (l : list stage) (k : M unit) (w : World) :
  (forall cmd w0, exists rc, (run_process cmd w0).1 = Exited rc) ->
  exists (rcs : list Z) (files : gmap string File),
    length rcs = length l
    /\ run_stages_then l k w
       = k (mkWorld files (stdout w ++ zip_with stage_line l rcs)
                    (calls w ++ zip (stage_cmd <$> l) (Exited <$> rcs))).
Proof.
  intros Hexit. revert w. induction l as [|st l IH]; intros w.
  - exists [], (fs w). simpl. rewrite !app_nil_r. by destruct w.
  - destruct (Hexit (stage_cmd st) w) as [rc Hrc].
    destruct (IH (mkWorld (run_process (stage_cmd st) w).2
                          (stdout w ++ [stage_line st rc])
                          (calls w ++ [(stage_cmd st, Exited rc)])))
      as (rcs & files & Hlen & Hrun).
    exists (rc :: rcs), files. split; [simpl; by rewrite Hlen|].
    simpl. unfold mbind at 1, M_bind at 1.
    rewrite (run_stage_exited st w rc Hrc).
    fold (run_stages_then l k). rewrite Hrun. simpl.
    by rewrite <- !app_assoc.
Qed.

Lemma create_tray_layers_run (w : World) (root : Element) (x y vw vh : pyfloat) :
  fs w !! CANONICAL_PATH = Some (SvgFile root) ->
  viewBox_numbers root = Some [x; y; vw; vh] ->
  exists body body_black pads,
    create_tray_layers w
    = (mkWorld (<["tray_pads.svg" := SvgFile pads]>
                  (<["tray_body_black.svg" := SvgFile body_black]>
                     (<["tray_body.svg" := SvgFile body]> (fs w))))
               (stdout w ++ ["Created tray_body.svg";
                             "Created tray_body_black.svg";
                             "Created tray_pads.svg"])
               (calls w), Ok tt).
Proof.
  intros Hfile Hvb.
  destruct (create_tray_body_run w root "tray_body.svg" "white" x y vw vh
              Hfile Hvb) as (body & _ & _ & Hbody & _).
  unfold create_tray_layers. rewrite (bind_ok _ _ _ _ _ Hbody).
  match goal with
  | |- context [ mbind _ (create_tray_body _ _) ?w1 ] =>
      destruct (create_tray_body_run w1 root "tray_body_black.svg" "black"
                  x y vw vh) as (black & _ & _ & Hblack & _);
      [simpl; rewrite lookup_insert_ne; [exact Hfile|by vm_compute]|done|]
  end.
  exists body, black. rewrite (bind_ok _ _ _ _ _ Hblack).
  set (doc := append (with_children root []) (create_pads "black")).
  assert (viewBox_numbers doc = Some [x; y; vw; vh]) as Hvb'.
  { rewrite <- Hvb. by apply viewBox_numbers_attrib. }
  destruct (make_square_numbers doc x y vw vh Hvb') as (pads & Hpads & _).
  exists pads.
  unfold load_canonical, ET_parse, mbind, M_bind, lift. simpl.
  rewrite !lookup_insert_ne by (by vm_compute). rewrite Hfile. fold doc.
  rewrite Hpads. unfold ET_write, print. simpl. by rewrite <- !app_assoc.
Qed.

(** The world after the document builders of the [__main__] block. *)
Lemma builders_run (w : World) (root : Element) (x y vw vh : pyfloat) (k : M unit) :
  fs w !! CANONICAL_PATH = Some (SvgFile root) ->
  viewBox_numbers root = Some [x; y; vw; vh] ->
  exists files,
    (create_app_icon;; create_tray_layers;; k) w
    = k (mkWorld files (stdout w ++ created_lines) (calls w)).
Proof.
  intros Hfile Hvb.
  destruct (create_app_icon_run w root x y vw vh Hfile Hvb)
    as (icon & _ & Hicon & _).
  rewrite (bind_ok _ _ _ _ _ Hicon).
  match goal with
  | |- context [ mbind _ create_tray_layers ?w1 ] =>
      destruct (create_tray_layers_run w1 root x y vw vh)
        as (body & black & pads & Hlayers);
      [simpl; rewrite lookup_insert_ne; [exact Hfile|by vm_compute]|done|]
  end.
  rewrite (bind_ok _ _ _ _ _ Hlayers). simpl.
  eexists. f_equal. f_equal. by rewrite <- app_assoc.
Qed.

(** ** Failures of the external process *)

(** C7: when every call of the external process exits, with status zero
    or not, [render_svg] and [composite_tray_icon] return normally, having
    printed the confirmation or, for a nonzero status, the error line with
    the path; the run makes all six calls and goes on to the cleanup; and
    when no temporary file is refused by the operating system, the whole
    run returns normally after the cleanup and the closing line. *)
Theorem soft_failure_isolation (w : World) (root : Element)
        (x y vw vh : pyfloat) :
  fs w !! CANONICAL_PATH = Some (SvgFile root) ->
  viewBox_numbers root = Some [x; y; vw; vh] ->
  (forall cmd w0, exists rc, (run_process cmd w0).1 = Exited rc) ->
  (forall svg_path png_path w0, exists rc,
      let cmd := ["magick"; "-background"; "none"; svg_path; png_path] in
      (run_process cmd w0).1 = Exited rc
      /\ render_svg svg_path png_path w0
         = (mkWorld (run_process cmd w0).2
              (stdout w0 ++ [stage_line (Render svg_path png_path) rc])
              (calls w0 ++ [(cmd, Exited rc)]), Ok tt))
  /\ (forall body_png pads_png output_png w0, exists rc,
      let cmd := ["magick"; body_png; pads_png; "-compose"; "DstOut";
                  "-composite"; output_png] in
      (run_process cmd w0).1 = Exited rc
      /\ composite_tray_icon body_png pads_png output_png w0
         = (mkWorld (run_process cmd w0).2
              (stdout w0
               ++ [stage_line (Composite body_png pads_png output_png) rc])
              (calls w0 ++ [(cmd, Exited rc)]), Ok tt))
  /\ exists (rcs : list Z) (files : gmap string File),
      length rcs = 6
      /\ main w
         = (cleanup_temp_files temp_files;;
            print "Icon generation complete.")
             (mkWorld files
                (stdout w ++ created_lines
                 ++ zip_with stage_line pipeline rcs)
                (calls w ++ zip (stage_cmd <$> pipeline) (Exited <$> rcs)))
      /\ (removable temp_files ->
          exists w' (removed : list string),
            main w = (w', Ok tt)
            /\ calls w'
               = (calls w
                  ++ zip (stage_cmd <$> pipeline) (Exited <$> rcs))%list
            /\ stdout w'
               = (stdout w ++ created_lines
                  ++ zip_with stage_line pipeline rcs
                  ++ map removed_line removed
                  ++ ["Icon generation complete."])%list
            /\ (forall p, p ∈ temp_files -> fs w' !! p = None)).
Proof.
  intros Hfile Hvb Hexit. split; [|split].
  - intros svg png w0.
    destruct (Hexit (stage_cmd (Render svg png)) w0) as [rc Hrc].
    exists rc. split; [done|].
    apply (run_stage_exited (Render svg png) w0 rc Hrc).
  - intros body pads out w0.
    destruct (Hexit (stage_cmd (Composite body pads out)) w0) as [rc Hrc].
    exists rc. split; [done|].
    apply (run_stage_exited (Composite body pads out) w0 rc Hrc).
  - rewrite main_stages.
    destruct (builders_run w root x y vw vh
                (run_stages_then pipeline
                   (cleanup_temp_files temp_files;;
                    print "Icon generation complete.")) Hfile Hvb)
      as (files & ->).
    match goal with
    | |- context [ run_stages_then pipeline ?k ?w2 ] =>
        destruct (run_stages_exited pipeline k w2 Hexit)
          as (rcs & files' & Hlen & ->)
    end.
    exists rcs, files'. split; [done|]. simpl stdout. simpl calls.
    rewrite <- !app_assoc. split; [done|]. intros Hrem.
    match goal with
    | |- context [ mbind _ (cleanup_temp_files temp_files) ?w3 ] =>
        destruct (cleanup_temp_files_run temp_files w3 Hrem)
          as (left & removed & Hclean & Hleft & _)
    end.
    rewrite (bind_ok _ _ _ _ _ Hclean). unfold print. simpl.
    eexists _, removed. split; [reflexivity|]. simpl.
    split; [done|]. split.
    + by rewrite <- !app_assoc.
    + intros p Hp. rewrite Hleft. by rewrite decide_True.
Qed.

(** C10: only [CalledProcessError] is handled.  When the process cannot
    be started, as when [magick] is not installed
    ([FileNotFoundError]), [render_svg] and [composite_tray_icon] raise
    that error without printing, and the run stops at the first call: no
    later call, no cleanup, no closing line. *)
Theorem spawn_error_aborts (w : World) (root : Element) (x y vw vh : pyfloat)
        (e : OSError) :
  fs w !! CANONICAL_PATH = Some (SvgFile root) ->
  viewBox_numbers root = Some [x; y; vw; vh] ->
  (forall cmd w0, (run_process cmd w0).1 = SpawnError e) ->
  (forall svg_path png_path w0,
      let cmd := ["magick"; "-background"; "none"; svg_path; png_path] in
      render_svg svg_path png_path w0
      = (mkWorld (run_process cmd w0).2 (stdout w0)
                 (calls w0 ++ [(cmd, SpawnError e)]), Raise (OS e)))
  /\ (forall body_png pads_png output_png w0,
      let cmd := ["magick"; body_png; pads_png; "-compose"; "DstOut";
                  "-composite"; output_png] in
      composite_tray_icon body_png pads_png output_png w0
      = (mkWorld (run_process cmd w0).2 (stdout w0)
                 (calls w0 ++ [(cmd, SpawnError e)]), Raise (OS e)))
  /\ exists w',
      main w = (w', Raise (OS e))
      /\ calls w'
         = (calls w
            ++ [(["magick"; "-background"; "none"; "app_icon.svg";
                  "../../assets/app_icon.png"], SpawnError e)])%list
      /\ stdout w' = (stdout w ++ created_lines)%list.
Proof.
  intros Hfile Hvb Hspawn. split; [|split].
  - intros svg png w0.
    apply (run_stage_spawn_error (Render svg png) w0 e (Hspawn _ _)).
  - intros body pads out w0.
    apply (run_stage_spawn_error (Composite body pads out) w0 e (Hspawn _ _)).
  - rewrite main_stages.
    destruct (builders_run w root x y vw vh
                (run_stages_then pipeline
                   (cleanup_temp_files temp_files;;
                    print "Icon generation complete.")) Hfile Hvb)
      as (files & ->).
    simpl.
    match goal with
    | |- context [ mbind _ (render_svg ?s ?p) ?w2 ] =>
        rewrite (bind_raise _ _ _ _ _
                   (run_stage_spawn_error (Render s p) w2 e (Hspawn _ _)))
    end.
    eexists. split; [reflexivity|]. by simpl.
Qed.

(** ** Further properties of [make_square] *)

Lemma viewBox_numbers_words (root : Element) :
  viewBox_numbers root = mapM float_of_str (viewBox_words root).
Proof. reflexivity. Qed.

Lemma make_square_squared (root : Element) (x y w h : pyfloat) :
  viewBox_numbers root = Some [x; y; w; h] ->
  make_square root = Ok (squared w h (children root)).
Proof.
  intros Hvb. unfold make_square, squared. rewrite Hvb.
  destruct (square_geometry w h) as [[side dx] dy].
  by rewrite foldl_append.
Qed.


Lemma make_square_Ok_inv (root out : Element) :
  make_square root = Ok out ->
  exists x y w h,
    viewBox_numbers root = Some [x; y; w; h]
    /\ out = squared w h (children root).
Proof.
  intros Hout.
  destruct (viewBox_numbers root) as [[|x [|y [|w [|h [|z l]]]]]|] eqn:E;
    try (unfold make_square in Hout; rewrite E in Hout; discriminate Hout).
  exists x, y, w, h. split; [done|].
  rewrite (make_square_squared root x y w h E) in Hout. by injection Hout.
Qed.

(** X1: [make_square] returns exactly when the [viewBox] consists of four
    words that [float()] accepts; in every other case, a wrong number of
    words or a word that is no number, it raises [ValueError], and it never
    raises anything else. *)
Theorem make_square_value_error (root : Element) :
  ((exists out, make_square root = Ok out)
   <-> length (viewBox_words root) = 4
       /\ Forall (fun word => is_Some (float_of_str word))
                 (viewBox_words root))
  /\ (make_square root = Raise ValueError
      <-> length (viewBox_words root) <> 4
          \/ Exists (fun word => float_of_str word = None)
                    (viewBox_words root))
  /\ (forall e, make_square root = Raise e -> e = ValueError).
Proof.
  pose proof (viewBox_numbers_words root) as Hw.
  destruct (viewBox_numbers root) as [l|] eqn:E.
  - symmetry in Hw. pose proof (length_mapM _ _ _ Hw) as Hlen.
    assert (Forall (fun word => is_Some (float_of_str word))
                   (viewBox_words root)) as Hall.
    { apply (mapM_is_Some_1 float_of_str). by rewrite Hw. }
    assert (~ Exists (fun word => float_of_str word = None)
              (viewBox_words root)) as Hnone.
    { intros Hex. apply (mapM_None_2 float_of_str) in Hex. congruence. }
    destruct l as [|x [|y [|w [|h [|z l]]]]];
      try (assert (make_square root = Raise ValueError) as Hraise
             by (unfold make_square; by rewrite E);
           rewrite Hraise, Hlen; simpl;
           split; [split; [by intros [? ?]|intros [? _]; lia]|];
           split; [split; [intros _; left; lia|done]|];
           intros e He; by injection He).
    rewrite (make_square_squared root x y w h E), Hlen. simpl.
    split; [split; [done|intros _; by eexists]|].
    split; [split; [done|intros [?|?]; [lia|done]]|]. done.
  - assert (make_square root = Raise ValueError) as Hraise
      by (unfold make_square; by rewrite E).
    symmetry in Hw. apply mapM_None_1 in Hw. rewrite Hraise.
    split; [split; [by intros [? ?]|]|].
    + intros [_ Hall]. exfalso.
      apply Exists_exists in Hw as (word & Hin & Hword).
      rewrite Forall_forall in Hall. specialize (Hall word Hin).
      rewrite Hword in Hall. by destruct Hall.
    + split; [split; [intros _; by right|done]|].
      intros e He. by injection He.
Qed.

(** *** Words and [split] *)

Lemma string_app_cons (c : ascii) (s t : string) :
  String c s ++ t = String c (s ++ t).
Proof. reflexivity. Qed.

Lemma string_app_nil_r (s : string) : s ++ "" = s.
Proof. induction s as [|c s IH]; [done|]. by rewrite string_app_cons, IH. Qed.

Lemma string_app_assoc (s t u : string) : (s ++ t) ++ u = s ++ (t ++ u).
Proof.
  induction s as [|c s IH]; [done|]. by rewrite !string_app_cons, IH.
Qed.

(** A separator of two or three bytes starts with a byte beyond ASCII. *)
Lemma is_space2_ascii (c1 c2 : ascii) :
  (nat_of_ascii c1 <? 128)%nat = true -> is_space2 c1 c2 = false.
Proof.
  intros Hc%Nat.ltb_lt. unfold is_space2.
  destruct (Nat.eqb_spec (nat_of_ascii c1) 194) as [E|_]; [lia|done].
Qed.

Lemma is_space3_ascii (c1 c2 c3 : ascii) :
  (nat_of_ascii c1 <? 128)%nat = true -> is_space3 c1 c2 c3 = false.
Proof.
  intros Hc%Nat.ltb_lt. unfold is_space3.
  destruct (Nat.eqb_spec (nat_of_ascii c1) 225) as [E|_]; [lia|].
  destruct (Nat.eqb_spec (nat_of_ascii c1) 226) as [E|_]; [lia|].
  destruct (Nat.eqb_spec (nat_of_ascii c1) 227) as [E|_]; [lia|done].
Qed.

(** An ASCII character that is no separator extends the current word. *)
Lemma split_from_char (c : ascii) (cur rest : string) :
  (nat_of_ascii c <? 128)%nat = true -> is_space c = false ->
  split_from cur (String c rest) = split_from (cur ++ String c "") rest.
Proof.
  intros Hc Hsp. cbn [split_from]. rewrite Hsp.
  destruct rest as [|c2 [|c3 rest]]; [done| |].
  - by rewrite is_space2_ascii.
  - by rewrite is_space2_ascii, is_space3_ascii.
Qed.

(** Reading a text without separator extends the current word. *)
Lemma split_from_word (s cur rest : string) :
  no_space s = true ->
  split_from cur (s ++ rest) = split_from (cur ++ s) rest.
Proof.
  revert cur. induction s as [|c s IH]; intros cur Hs.
  - by rewrite string_app_nil_r.
  - simpl in Hs. apply andb_prop in Hs as [Hc Hs].
    apply andb_prop in Hc as [Hascii Hc].
    apply negb_true_iff in Hc. rewrite string_app_cons.
    rewrite (split_from_char c cur _ Hascii Hc).
    rewrite (IH _ Hs), string_app_assoc. by rewrite string_app_cons.
Qed.

(** A space ends the word being read. *)
Lemma split_from_space (cur rest : string) :
  split_from cur (String " " rest) = end_word cur (split_from "" rest).
Proof. reflexivity. Qed.

(** The [viewBox] text [make_square] writes splits into its four words. *)
Lemma split_square_viewBox (s : string) :
  s <> "" -> no_space s = true ->
  split ("0 0 " ++ s ++ " " ++ s) = ["0"; "0"; s; s].
Proof.
  intros Hne Hs. unfold split.
  change ("0 0 " ++ s ++ " " ++ s)
    with (String "0" (String " " (String "0" (String " "
            (s ++ String " " s))))).
  rewrite (split_from_char "0" "" _ eq_refl eq_refl), split_from_space.
  rewrite (split_from_char "0" "" _ eq_refl eq_refl), split_from_space.
  change ("" ++ String "0" "") with "0".
  unfold end_word at 1 2. cbn [decide]. simpl decide.
  rewrite !decide_False by done.
  do 2 f_equal. rewrite (split_from_word s "" _ Hs).
  change ("" ++ s) with s. rewrite split_from_space.
  unfold end_word at 1. rewrite decide_False by done. f_equal.
  rewrite <- (string_app_nil_r s) at 1.
  rewrite (split_from_word s "" "" Hs). change ("" ++ s) with s.
  cbn [split_from]. unfold end_word. by rewrite decide_False.
Qed.

Lemma squared_attrib_keys (w h : pyfloat) (content : list Element) (k : string) :
  is_Some (attrib (squared w h content) !! k)
  <-> k ∈ ["viewBox"; "width"; "height"; "version"].
Proof.
  unfold squared. destruct (square_geometry w h) as [[side dx] dy]. simpl.
  rewrite !elem_of_cons, elem_of_nil.
  destruct (decide (k = "viewBox")) as [->|H1];
    [rewrite lookup_insert_eq; split; eauto|].
  rewrite lookup_insert_ne by done.
  destruct (decide (k = "width")) as [->|H2];
    [rewrite lookup_insert_eq; split; eauto|].
  rewrite lookup_insert_ne by done.
  destruct (decide (k = "height")) as [->|H3];
    [rewrite lookup_insert_eq; split; eauto|].
  rewrite lookup_insert_ne by done.
  destruct (decide (k = "version")) as [->|H4];
    [rewrite lookup_insert_eq; split; eauto|].
  rewrite lookup_insert_ne, lookup_empty by done.
  split; [by intros [? ?]|]. intros [?|[?|[?|[?|[]]]]]; done.
Qed.

(** X4: the root [make_square] returns is a new element: it carries the
    four attributes [viewBox], [width], [height] and [version] and nothing
    of the old root but its children, which sit unchanged and in order in
    one group whose only attribute is [transform].  The tag, the text and
    every other attribute of the old root have no influence on the
    result. *)
Theorem make_square_fresh_root (root out : Element) :
  make_square root = Ok out ->
  tag out = svg_svg /\ text out = None /\ tail out = None
  /\ (forall k, is_Some (attrib out !! k)
                <-> k ∈ ["viewBox"; "width"; "height"; "version"])
  /\ attrib out !! "version" = Some "1.1"
  /\ (exists g,
        children out = [g]
        /\ tag g = svg_g /\ text g = None /\ tail g = None
        /\ (forall k, is_Some (attrib g !! k) <-> k = "transform")
        /\ children g = children root)
  /\ (forall root',
        attrib root' !! "viewBox" = attrib root !! "viewBox" ->
        children root' = children root ->
        make_square root' = Ok out).
Proof.
  intros Hout.
  destruct (make_square_Ok_inv root out Hout) as (x & y & w & h & Hvb & ->).
  split; [|split; [|split; [|split; [|split; [|split]]]]].
  - unfold squared. by destruct (square_geometry w h) as [[? ?] ?].
  - unfold squared. by destruct (square_geometry w h) as [[? ?] ?].
  - unfold squared. by destruct (square_geometry w h) as [[? ?] ?].
  - intros k. apply squared_attrib_keys.
  - unfold squared. by destruct (square_geometry w h) as [[? ?] ?].
  - unfold squared. destruct (square_geometry w h) as [[side dx] dy].
    eexists. split; [reflexivity|]. simpl. repeat split; try done.
    + intros Hk. destruct (decide (k = "transform")) as [|Hne]; [done|].
      rewrite lookup_singleton_ne in Hk by done. by destruct Hk.
    + intros ->. rewrite lookup_singleton_eq. eauto.
  - intros root' Hattr Hch. rewrite <- Hout.
    unfold make_square.
    rewrite (viewBox_numbers_attrib root' root Hattr). by rewrite Hch.
Qed.

(** X5: squaring a squared document changes nothing of the canvas.  When
    the side is finite, the text written for it is one word that
    [float()] reads back as the side, and ['0'] reads as zero,
    [make_square] accepts its own result and returns a root with the same
    attributes, around a group translated by [(0, 0)] that holds the group
    of the first pass. *)
Theorem make_square_twice (root : Element) (x y w h : pyfloat) :
  viewBox_numbers root = Some [x; y; w; h] ->
  is_finite (max_float w h) ->
  str_of_float (max_float w h) <> "" ->
  no_space (str_of_float (max_float w h)) = true ->
  float_of_str (str_of_float (max_float w h)) = Some (max_float w h) ->
  float_of_str "0" = Some (Fin 0%Qc) ->
  exists out out2,
    make_square root = Ok out
    /\ make_square out = Ok out2
    /\ attrib out2 = attrib out
    /\ is_square_canvas out2 (max_float w h) (Fin 0%Qc) (Fin 0%Qc)
                        (children out).
Proof.
  intros Hvb Hfin Hne Hword Hback Hzero.
  pose proof (make_square_squared root x y w h Hvb) as Hout.
  set (side := max_float w h) in *.
  assert (viewBox_numbers (squared w h (children root))
          = Some [Fin 0%Qc; Fin 0%Qc; side; side]) as Hvb2.
  { unfold viewBox_numbers, squared, square_geometry. fold side. simpl.
    rewrite lookup_insert_eq.
    change (default "0 0 401.98 559.472"
              (Some ("0 0 " ++ str_of_float side ++ " "
                     ++ str_of_float side)))
      with ("0 0 " ++ str_of_float side ++ " " ++ str_of_float side).
    rewrite (split_square_viewBox _ Hne Hword). simpl.
    by rewrite Hzero, Hback. }
  exists (squared w h (children root)),
    (squared side side (children (squared w h (children root)))).
  split; [done|].
  split; [by apply make_square_squared with (Fin 0%Qc) (Fin 0%Qc)|].
  assert (max_float side side = side) as Hmax.
  { by destruct (max_float_cases side side). }
  split.
  - unfold squared, square_geometry. fold side. by rewrite Hmax.
  - destruct (make_square_numbers _ _ _ _ _ Hvb2) as (out2 & Hout2 & Hcanvas).
    rewrite (make_square_squared _ _ _ _ _ Hvb2) in Hout2.
    injection Hout2 as <-.
    rewrite Hmax, (float_sub_self side Hfin) in Hcanvas. simpl in Hcanvas.
    by rewrite half_zero in Hcanvas.
Qed.

(** ** Further properties of the recolouring *)

Lemma with_children_twice (e : Element) (ch ch' : list Element) :
  with_children (with_children e ch) ch' = with_children e ch'.
Proof. reflexivity. Qed.

Lemma paint_with_children (color : string) (e : Element) (ch : list Element) :
  paint color (with_children e ch) = with_children (paint color e) ch.
Proof.
  unfold paint, has_fill, set, with_children. simpl.
  destruct (attrib e !! "fill") as [v|]; simpl;
    [destruct (bool_decide (v <> "none"))|]; simpl;
    by repeat case_decide.
Qed.

Lemma go_blue_with_children (e : Element) (ch : list Element) :
  go_blue (with_children e ch) = with_children (go_blue e) ch.
Proof.
  unfold go_blue, set, with_children. simpl.
  destruct (attrib e !! "fill") as [v|]; [|done]. by case_decide.
Qed.

(** The attributes after [paint], key by key. *)
Lemma paint_lookup (color : string) (e : Element) (k : string) :
  attrib (paint color e) !! k
  = if decide (k = "fill")
    then (if decide (attrib e !! "fill" = Some "none")
          then Some "none" else Some color)
    else if decide (k = "stroke")
         then (match attrib e !! "stroke" with
               | Some _ => Some color
               | None => None
               end)
         else attrib e !! k.
Proof.
  destruct (paint_attrib color e) as (_ & Hfill & Hnone & Hstroke & Hno & Hk).
  destruct (decide (k = "fill")) as [->|Hkf].
  - destruct (decide (attrib e !! "fill" = Some "none")); auto.
  - destruct (decide (k = "stroke")) as [->|Hks]; [|by apply Hk].
    destruct (attrib e !! "stroke") as [s|] eqn:Hs; [|by apply Hno].
    apply Hstroke. eauto.
Qed.

Lemma paint_fields (color : string) (e : Element) :
  tag (paint color e) = tag e /\ text (paint color e) = text e
  /\ tail (paint color e) = tail e
  /\ children (paint color e) = children e.
Proof.
  unfold paint, has_fill, set. destruct e as [t a tx tl ch]; simpl.
  destruct (a !! "fill") as [v|]; simpl;
    [destruct (bool_decide (v <> "none"))|]; simpl;
    by repeat case_decide.
Qed.

Lemma Element_eq (e1 e2 : Element) :
  tag e1 = tag e2 -> attrib e1 = attrib e2 -> text e1 = text e2 ->
  tail e1 = tail e2 -> children e1 = children e2 -> e1 = e2.
Proof. destruct e1, e2; simpl; by intros -> -> -> -> ->. Qed.

Lemma paint_paint (c1 c2 : string) (e : Element) :
  c1 <> "none" \/ c1 = c2 ->
  paint c2 (paint c1 e) = paint c2 e.
Proof.
  intros Hc.
  destruct (paint_fields c2 (paint c1 e)) as (Ht & Hx & Hl & Hch).
  destruct (paint_fields c1 e) as (Ht1 & Hx1 & Hl1 & Hch1).
  destruct (paint_fields c2 e) as (Ht2 & Hx2 & Hl2 & Hch2).
  apply Element_eq; try congruence.
  apply map_eq. intros k. rewrite !paint_lookup.
  destruct (decide (k = "fill")) as [->|Hkf].
  - rewrite (decide_True (P := "fill" = "fill")) by done.
    destruct (decide (attrib e !! "fill" = Some "none")) as [Hn|Hn].
    + by rewrite decide_True.
    + destruct (decide (Some c1 = Some "none")) as [Heq|]; [|done].
      injection Heq as ->. by destruct Hc as [|<-].
  - destruct (decide (k = "stroke")) as [->|Hks].
    + rewrite (decide_False (P := "stroke" = "fill")) by done.
      rewrite (decide_True (P := "stroke" = "stroke")) by done.
      by destruct (attrib e !! "stroke").
    + done.
Qed.

Lemma paint_sub_eq (color : string) (e : Element) :
  paint_sub color e
  = with_children (paint color e) (map (paint_sub color) (children e)).
Proof. by destruct e. Qed.

Lemma update_blue_eq (e : Element) :
  update_blue e = with_children (go_blue e) (map update_blue (children e)).
Proof. by destruct e. Qed.

Lemma paint_sub_paint_sub (c1 c2 : string) (e : Element) :
  c1 <> "none" \/ c1 = c2 ->
  paint_sub c2 (paint_sub c1 e) = paint_sub c2 e.
Proof.
  intros Hc. induction e as [t a tx tl ch IH] using Element_nested_ind.
  rewrite (paint_sub_eq c1), (paint_sub_eq c2 (with_children _ _)).
  rewrite paint_with_children, with_children_twice.
  rewrite (paint_paint c1 c2 _ Hc), (paint_sub_eq c2 (mkElement _ _ _ _ _)).
  cbn [children with_children]. f_equal.
  rewrite map_map. apply map_ext_in. intros c Hin.
  rewrite Forall_forall in IH. apply IH. by apply list_elem_of_In.
Qed.

(** X6: painting a painted element again gives what the second colour
    alone gives, provided the first colour is not ['none'] (or is the
    second colour): a silhouette can be recoloured, and painting twice with
    one colour changes nothing. *)
Theorem repaint (c1 c2 : string) (elem : Element) :
  c1 <> "none" \/ c1 = c2 ->
  paint_elem c2 (paint_elem c1 elem) = paint_elem c2 elem.
Proof.
  intros Hc. rewrite !paint_elem_sub. by apply paint_sub_paint_sub.
Qed.

Lemma go_blue_fill (e : Element) (v : string) :
  attrib (go_blue e) !! "fill" = Some v -> upper v <> "#6AD7E5".
Proof.
  unfold go_blue, set. destruct (attrib e !! "fill") as [v0|] eqn:Hf.
  - destruct (decide (upper v0 = "#6AD7E5")) as [|Hne]; simpl.
    + rewrite lookup_insert_eq. intros [= <-]. by vm_compute.
    + rewrite Hf. by intros [= <-].
  - by rewrite Hf.
Qed.

Lemma go_blue_go_blue (e : Element) : go_blue (go_blue e) = go_blue e.
Proof.
  unfold go_blue at 1.
  destruct (attrib (go_blue e) !! "fill") as [v|] eqn:Hf; [|done].
  apply go_blue_fill in Hf. by rewrite decide_False.
Qed.

Lemma update_blue_update_blue (e : Element) :
  update_blue (update_blue e) = update_blue e.
Proof.
  induction e as [t a tx tl ch IH] using Element_nested_ind.
  rewrite (update_blue_eq (mkElement _ _ _ _ _)).
  rewrite (update_blue_eq (with_children _ _)).
  rewrite go_blue_with_children, with_children_twice, go_blue_go_blue.
  cbn [children with_children]. f_equal.
  rewrite map_map. apply map_ext_in. intros c Hin.
  rewrite Forall_forall in IH. apply IH. by apply list_elem_of_In.
Qed.

(** X7: after the recolouring of [create_app_icon] no element of the
    document, at any depth, has a [fill] equal to ['#6AD7E5'] in any
    spelling; running the recolouring again changes nothing. *)
Theorem update_blue_complete (root : Element) :
  update_blue (update_blue root) = update_blue root
  /\ forall (p : list nat) (elem : Element) (v : string),
      subelement p (update_blue root) = Some elem ->
      attrib elem !! "fill" = Some v ->
      ~ caseless_eq v "#6AD7E5".
Proof.
  split; [apply update_blue_update_blue|].
  intros p elem v Hpath Hfill.
  rewrite subelement_update_blue in Hpath.
  destruct (subelement p root) as [e|]; [|done]. injection Hpath as <-.
  destruct (update_blue_attrib e) as [Ha _]. rewrite Ha in Hfill.
  apply go_blue_fill in Hfill.
  by rewrite <- (upper_caseless v "#6AD7E5" eq_refl).
Qed.

(** ** Further properties of the document builders *)

(** The documents the builders write, spelled out. *)
Lemma create_tray_body_doc (w : World) (root : Element)
      (filename color : string) (x y vw vh : pyfloat) :
  fs w !! CANONICAL_PATH = Some (SvgFile root) ->
  viewBox_numbers root = Some [x; y; vw; vh] ->
  create_tray_body filename color w
  = (mkWorld (<[filename := SvgFile (squared vw vh [body_group color root])]>
                (fs w))
             (stdout w ++ ["Created " ++ filename]) (calls w), Ok tt).
Proof.
  intros Hfile Hvb.
  unfold create_tray_body, load_canonical, ET_parse, mbind, M_bind, lift.
  rewrite Hfile.
  rewrite (make_square_squared _ x y vw vh)
    by (rewrite <- Hvb; by apply viewBox_numbers_attrib).
  by rewrite foldl_append_map.
Qed.

Lemma create_app_icon_doc (w : World) (root : Element) (x y vw vh : pyfloat) :
  fs w !! CANONICAL_PATH = Some (SvgFile root) ->
  viewBox_numbers root = Some [x; y; vw; vh] ->
  create_app_icon w
  = (mkWorld (<[APP_ICON_PATH :=
                  SvgFile (squared vw vh
                             (map update_blue (children root)
                              ++ [create_pads "#FFFFFF"]))]> (fs w))
             (stdout w ++ ["Created " ++ APP_ICON_PATH]) (calls w), Ok tt).
Proof.
  intros Hfile Hvb.
  unfold create_app_icon, load_canonical, ET_parse, mbind, M_bind, lift.
  rewrite Hfile.
  rewrite (make_square_squared _ x y vw vh).
  - by destruct root.
  - rewrite <- Hvb. apply viewBox_numbers_attrib.
    destruct (go_blue_attrib root) as (_ & _ & _ & _ & Hk).
    destruct root. by apply Hk.
Qed.

Lemma create_tray_layers_doc (w : World) (root : Element) (x y vw vh : pyfloat) :
  fs w !! CANONICAL_PATH = Some (SvgFile root) ->
  viewBox_numbers root = Some [x; y; vw; vh] ->
  create_tray_layers w
  = (mkWorld
       (<["tray_pads.svg" := SvgFile (squared vw vh [create_pads "black"])]>
          (<["tray_body_black.svg" :=
               SvgFile (squared vw vh [body_group "black" root])]>
             (<["tray_body.svg" :=
                  SvgFile (squared vw vh [body_group "white" root])]>
                (fs w))))
       (stdout w ++ ["Created tray_body.svg"; "Created tray_body_black.svg";
                     "Created tray_pads.svg"])
       (calls w), Ok tt).
Proof.
  intros Hfile Hvb. unfold create_tray_layers.
  rewrite (bind_ok _ _ _ _ _
             (create_tray_body_doc w root "tray_body.svg" "white"
                                   x y vw vh Hfile Hvb)).
  match goal with
  | |- context [ mbind _ (create_tray_body _ _) ?w1 ] =>
      rewrite (bind_ok _ _ _ _ _
                 (create_tray_body_doc w1 root "tray_body_black.svg" "black"
                                       x y vw vh
                    ltac:(simpl; rewrite lookup_insert_ne;
                          [exact Hfile|by vm_compute]) Hvb))
  end.
  unfold load_canonical, ET_parse, mbind, M_bind, lift. simpl.
  rewrite !lookup_insert_ne by (by vm_compute). rewrite Hfile.
  rewrite (make_square_squared _ x y vw vh)
    by (rewrite <- Hvb; by apply viewBox_numbers_attrib).
  unfold ET_write, print. simpl. by rewrite <- !app_assoc.
Qed.

Lemma paint_fill_stroke (color : string) (e : Element) :
  (attrib (paint color e) !! "fill" = Some color
   \/ attrib (paint color e) !! "fill" = Some "none")
  /\ (attrib (paint color e) !! "stroke" = None
      \/ attrib (paint color e) !! "stroke" = Some color).
Proof.
  rewrite !paint_lookup.
  rewrite (decide_True (P := "fill" = "fill")) by done.
  rewrite (decide_False (P := "stroke" = "fill")) by done.
  rewrite (decide_True (P := "stroke" = "stroke")) by done.
  split; [case_decide; auto|]. destruct (attrib e !! "stroke"); auto.
Qed.

(** X8: the tray body that [create_tray_body] writes is flat.  Below the
    unattributed body group every element has its [fill] equal to the
    colour or to ['none'] and a [stroke], if any, equal to the colour; and
    the body group has the shape of the canonical root: an element sits at
    a path below it exactly when one sits at that path below the root. *)
Theorem tray_body_flat (w : World) (root : Element)
        (filename color : string) (x y vw vh : pyfloat) :
  fs w !! CANONICAL_PATH = Some (SvgFile root) ->
  viewBox_numbers root = Some [x; y; vw; vh] ->
  exists new_root g body,
    create_tray_body filename color w
    = (mkWorld (<[filename := SvgFile new_root]> (fs w))
               (stdout w ++ ["Created " ++ filename]) (calls w), Ok tt)
    /\ children new_root = [g] /\ children g = [body]
    /\ tag body = svg_g /\ attrib body = ∅
    /\ (forall (i : nat) (p : list nat) (elem' : Element),
          subelement (i :: p) body = Some elem' ->
          (attrib elem' !! "fill" = Some color
           \/ attrib elem' !! "fill" = Some "none")
          /\ (attrib elem' !! "stroke" = None
              \/ attrib elem' !! "stroke" = Some color))
    /\ (forall p : list nat,
          is_Some (subelement p body) <-> is_Some (subelement p root)).
Proof.
  intros Hfile Hvb.
  exists (squared vw vh [body_group color root]),
    (mkElement svg_g
       {[ "transform" := "translate("
            ++ str_of_float (float_half (float_sub (max_float vw vh) vw)) ++ ", "
            ++ str_of_float (float_half (float_sub (max_float vw vh) vh)) ++ ")" ]}
       None None [body_group color root]),
    (body_group color root).
  split; [by apply create_tray_body_doc with x y|].
  split; [done|]. split; [done|]. split; [done|]. split; [done|].
  assert (forall i p,
             subelement (i :: p) (body_group color root)
             = paint_sub color <$> subelement (i :: p) root) as Hsub.
  { intros i p. simpl.
    change (map (paint_elem color) (children root))
      with (paint_elem color <$> children root).
    rewrite list_lookup_fmap.
    destruct (children root !! i) as [c|]; [simpl|done].
    by rewrite paint_elem_sub, subelement_paint_sub. }
  split.
  - intros i p elem' Hpath. rewrite Hsub in Hpath.
    destruct (subelement (i :: p) root) as [e|]; [|done].
    injection Hpath as <-.
    destruct (paint_sub_attrib color e) as [-> _].
    apply paint_fill_stroke.
  - intros [|i p]; [split; eauto|].
    rewrite Hsub. apply fmap_is_Some.
Qed.

(** X9: in the application icon the pads come last.  The group that holds
    the content has the recoloured children of the canonical root, in
    their order, followed by one more child: the white pads. *)
Theorem app_icon_pads_on_top (w : World) (root : Element) (x y vw vh : pyfloat) :
  fs w !! CANONICAL_PATH = Some (SvgFile root) ->
  viewBox_numbers root = Some [x; y; vw; vh] ->
  exists new_root g,
    create_app_icon w
    = (mkWorld (<[APP_ICON_PATH := SvgFile new_root]> (fs w))
               (stdout w ++ ["Created " ++ APP_ICON_PATH]) (calls w), Ok tt)
    /\ children new_root = [g]
    /\ length (children g) = S (length (children root))
    /\ last (children g) = Some (create_pads "#FFFFFF")
    /\ (forall (i : nat) (elem : Element),
          children root !! i = Some elem ->
          children g !! i = Some (update_blue elem))
    /\ (forall (p : list nat) (elem : Element) (v : string),
          subelement (length (children root) :: p) g = Some elem ->
          attrib elem !! "fill" = Some v -> v = "#FFFFFF").
Proof.
  intros Hfile Hvb.
  exists (squared vw vh (map update_blue (children root)
                         ++ [create_pads "#FFFFFF"])),
    (mkElement svg_g
       {[ "transform" := "translate("
            ++ str_of_float (float_half (float_sub (max_float vw vh) vw)) ++ ", "
            ++ str_of_float (float_half (float_sub (max_float vw vh) vh)) ++ ")" ]}
       None None
       (map update_blue (children root) ++ [create_pads "#FFFFFF"])).
  split; [by apply create_app_icon_doc with x y|].
  split; [done|]. cbn [children].
  split; [rewrite length_app, length_map; simpl; lia|].
  split; [by rewrite last_snoc|]. split.
  - intros i elem Hi. rewrite lookup_app_l.
    + change (map update_blue (children root))
        with (update_blue <$> children root).
      by rewrite list_lookup_fmap, Hi.
    + rewrite length_map. by apply lookup_lt_Some in Hi.
  - intros p elem v. cbn [subelement children].
    rewrite lookup_app_r by (by rewrite length_map).
    rewrite length_map, Nat.sub_diag. cbn [lookup list_lookup].
    destruct p as [|j [|k p]].
    + intros [= <-]. by vm_compute.
    + cbn [subelement].
      destruct (children (create_pads "#FFFFFF") !! j) as [r|] eqn:Hr;
        [|done].
      intros [= <-] Hv.
      do 4 (destruct j as [|j]; [vm_compute in Hr; injection Hr as <-;
                                 vm_compute in Hv; by injection Hv|]).
      by vm_compute in Hr.
    + cbn [subelement].
      destruct (children (create_pads "#FFFFFF") !! j) as [r|] eqn:Hr;
        [|done].
      do 4 (destruct j as [|j]; [vm_compute in Hr; injection Hr as <-;
                                 by destruct k|]).
      by vm_compute in Hr.
Qed.

(** The world after the two document builders, spelled out. *)
Lemma builders_doc (w : World) (root : Element) (x y vw vh : pyfloat)
      (k : M unit) :
  fs w !! CANONICAL_PATH = Some (SvgFile root) ->
  viewBox_numbers root = Some [x; y; vw; vh] ->
  (create_app_icon;; create_tray_layers;; k) w
  = k (mkWorld
         (<["tray_pads.svg" := SvgFile (squared vw vh [create_pads "black"])]>
            (<["tray_body_black.svg" :=
                 SvgFile (squared vw vh [body_group "black" root])]>
               (<["tray_body.svg" :=
                    SvgFile (squared vw vh [body_group "white" root])]>
                  (<[APP_ICON_PATH :=
                       SvgFile (squared vw vh
                                  (map update_blue (children root)
                                   ++ [create_pads "#FFFFFF"]))]>
                     (fs w)))))
         (stdout w ++ created_lines) (calls w)).
Proof.
  intros Hfile Hvb.
  rewrite (bind_ok _ _ _ _ _ (create_app_icon_doc w root x y vw vh Hfile Hvb)).
  match goal with
  | |- context [ mbind _ create_tray_layers ?w1 ] =>
      rewrite (bind_ok _ _ _ _ _
                 (create_tray_layers_doc w1 root x y vw vh
                    ltac:(simpl; rewrite lookup_insert_ne;
                          [exact Hfile|by vm_compute]) Hvb))
  end.
  simpl. by rewrite <- app_assoc.
Qed.

(** X10: the four documents the builders write share one canvas, so that
    their rasters align: the roots have the same attributes and the
    content groups the same translation.  The two tray bodies are painted
    from the canonical children, each from the original and not from the
    other, and the pads document holds the black pads alone. *)
Theorem builders_aligned (w : World) (root : Element) (x y vw vh : pyfloat) :
  fs w !! CANONICAL_PATH = Some (SvgFile root) ->
  viewBox_numbers root = Some [x; y; vw; vh] ->
  exists w' icon body black pads gi gb gk gp,
    (create_app_icon;; create_tray_layers) w = (w', Ok tt)
    /\ fs w' !! "app_icon.svg" = Some (SvgFile icon)
    /\ fs w' !! "tray_body.svg" = Some (SvgFile body)
    /\ fs w' !! "tray_body_black.svg" = Some (SvgFile black)
    /\ fs w' !! "tray_pads.svg" = Some (SvgFile pads)
    /\ fs w' !! CANONICAL_PATH = Some (SvgFile root)
    /\ attrib icon = attrib body /\ attrib body = attrib black
    /\ attrib black = attrib pads
    /\ children icon = [gi] /\ children body = [gb]
    /\ children black = [gk] /\ children pads = [gp]
    /\ attrib gi = attrib gb /\ attrib gb = attrib gk
    /\ attrib gk = attrib gp
    /\ children gb = [body_group "white" root]
    /\ children gk = [body_group "black" root]
    /\ children gp = [create_pads "black"].
Proof.
  intros Hfile Hvb.
  assert ((create_app_icon;; create_tray_layers) w
          = (create_app_icon;; create_tray_layers;; mret tt) w) as ->.
  { unfold mbind, M_bind, mret, M_ret.
    destruct (create_app_icon w) as [w1 [[]|e]]; [|done].
    by destruct (create_tray_layers w1) as [w2 [[]|e]]. }
  rewrite (builders_doc w root x y vw vh (mret tt) Hfile Hvb).
  unfold squared. destruct (square_geometry vw vh) as [[side dx] dy].
  eexists _, _, _, _, _, _, _, _, _. split; [reflexivity|]. simpl.
  split; [by rewrite !lookup_insert_ne, lookup_insert_eq by (by vm_compute)|].
  split; [by rewrite !lookup_insert_ne, lookup_insert_eq by (by vm_compute)|].
  split; [by rewrite !lookup_insert_ne, lookup_insert_eq by (by vm_compute)|].
  split; [by rewrite lookup_insert_eq|].
  split; [by rewrite !lookup_insert_ne by (by vm_compute)|].
  repeat split; reflexivity.
Qed.

(** ** Hard failures *)


(** ** Further properties of the cleanup and of the whole run *)

(** [cleanup_temp_files] creates no file, however it ends. *)
Lemma cleanup_temp_files_absent_after (files : list string) (w w1 : World)
      (r : result unit) (p : string) :
  cleanup_temp_files files w = (w1, r) ->
  fs w !! p = None -> fs w1 !! p = None.
Proof.
  clear float_of_str str_of_float run_process str_exn.
  revert w. induction files as [|f files IH]; intros w Hrun Hp.
  - injection Hrun as <- _. done.
  - destruct (fs w !! f) as [c|] eqn:Hc.
    + destruct (remove_error f w) as [e|] eqn:He.
      * rewrite (cleanup_temp_files_refused f files w e) in Hrun
          by (rewrite ?Hc; eauto).
        injection Hrun as <- _. done.
      * rewrite cleanup_temp_files_removed in Hrun by (rewrite ?Hc; eauto).
        apply (IH _ Hrun). simpl.
        destruct (decide (p = f)) as [->|Hne];
          [apply lookup_delete_eq|by rewrite lookup_delete_ne].
    + rewrite cleanup_temp_files_absent in Hrun by done. by apply (IH w).
Qed.

(** When it returns, no listed path is left. *)
Lemma cleanup_temp_files_Ok (files : list string) (w w1 : World) :
  cleanup_temp_files files w = (w1, Ok tt) ->
  forall p, p ∈ files -> fs w1 !! p = None.
Proof.
  clear float_of_str str_of_float run_process str_exn.
  revert w. induction files as [|f files IH]; intros w Hrun p Hp.
  - by apply elem_of_nil in Hp.
  - destruct (fs w !! f) as [c|] eqn:Hc.
    + destruct (remove_error f w) as [e|] eqn:He.
      * rewrite (cleanup_temp_files_refused f files w e) in Hrun
          by (rewrite ?Hc; eauto).
        discriminate Hrun.
      * rewrite cleanup_temp_files_removed in Hrun by (rewrite ?Hc; eauto).
        apply elem_of_cons in Hp as [->|Hp]; [|by apply (IH _ Hrun)].
        apply (cleanup_temp_files_absent_after _ _ _ _ _ Hrun). simpl.
        apply lookup_delete_eq.
    + rewrite cleanup_temp_files_absent in Hrun by done.
      apply elem_of_cons in Hp as [->|Hp]; [|by apply (IH _ Hrun)].
      by apply (cleanup_temp_files_absent_after _ _ _ _ _ Hrun).
Qed.

(** Where no listed path exists, it does nothing. *)
Lemma cleanup_temp_files_nothing (files : list string) (w : World) :
  (forall p, p ∈ files -> fs w !! p = None) ->
  cleanup_temp_files files w = (w, Ok tt).
Proof.
  clear float_of_str str_of_float run_process str_exn.
  induction files as [|f files IH]; intros Hnone; [done|].
  rewrite cleanup_temp_files_absent.
  - apply IH. intros p Hp. apply Hnone, elem_of_cons. by right.
  - apply Hnone, elem_of_cons. by left.
Qed.

(** X12: cleaning up twice is cleaning up once: after a
    [cleanup_temp_files] that returned, a second one on the same list
    finds nothing, prints nothing and leaves the world as the first one
    left it. *)
Theorem cleanup_twice (files : list string) (w w1 : World) :
  cleanup_temp_files files w = (w1, Ok tt) ->
  (forall p, p ∈ files -> fs w1 !! p = None)
  /\ cleanup_temp_files files w1 = (w1, Ok tt).
Proof.
  intros Hrun.
  pose proof (cleanup_temp_files_Ok files w w1 Hrun) as Hnone.
  split; [done|]. by apply cleanup_temp_files_nothing.
Qed.





End Script.

(** ** Pads *)

(** C3: for every colour, [create_pads] returns the group [midi-pads] with
    exactly four [rect] children at (109,260), (208,260), (109,359) and
    (208,359), each 85 by 85 with [rx = ry = 10] and the given [fill].  The
    result is this value, a function of the colour alone: [create_pads]
    reads and changes nothing else, so two calls with one colour agree. *)
Theorem create_pads_layout (color : string) :
  let rect (x y : string) :=
    mkElement svg_rect
      (list_to_map
         [ ("x", x); ("y", y); ("width", "85"); ("height", "85");
           ("rx", "10"); ("ry", "10"); ("fill", color) ])
      None None [] in
  create_pads color
  = mkElement svg_g {[ "id" := "midi-pads" ]} None None
      [ rect "109" "260"; rect "208" "260";
        rect "109" "359"; rect "208" "359" ]
  /\ length (children (create_pads color)) = 4
  /\ Forall (fun r => tag r = svg_rect
                      /\ attrib r !! "width" = Some "85"
                      /\ attrib r !! "height" = Some "85"
                      /\ attrib r !! "rx" = Some "10"
                      /\ attrib r !! "ry" = Some "10"
                      /\ attrib r !! "fill" = Some color
                      /\ children r = [])
            (children (create_pads color))
  /\ (fun r => (attrib r !! "x", attrib r !! "y")) <$> children (create_pads color)
     = [ (Some "109", Some "260"); (Some "208", Some "260");
         (Some "109", Some "359"); (Some "208", Some "359") ].
Proof.
  split; [reflexivity|]. split; [reflexivity|]. split.
  - repeat constructor.
  - reflexivity.
Qed.

(** C5, amended: the pad coordinates of [create_pads] satisfy the PadSpec
    formula [start_x = center_x - (2*size+gap)/2] with [size = 85],
    [gap = 14] and [center_x = 201], the integer nearest to half the
    reference width 401.98, so that [start_x = 201 - 92 = 109]; and
    [start_y = 260], with the four positions at [(start_x, start_y)],
    [(start_x+size+gap, start_y)], [(start_x, start_y+size+gap)] and
    [(start_x+size+gap, start_y+size+gap)]. *)
Theorem pad_layout_formula :
  Qc_of_Z start_x
  = PadSpec_start_x (Qc_of_Z 201) (Qc_of_Z pad_size) (Qc_of_Z pad_gap)
  /\ (Qc_of_Z 201 - reference_width / two < Q2Qc (1 # 2))%Qc
  /\ (reference_width / two - Qc_of_Z 201 < Q2Qc (1 # 2))%Qc
  /\ pad_size = 85%Z /\ pad_gap = 14%Z
  /\ start_x = (201 - 92)%Z /\ start_x = 109%Z /\ start_y = 260%Z
  /\ pads_coords = PadSpec_positions start_x start_y pad_size pad_gap
  /\ forall color,
      (fun r => (attrib r !! "x", attrib r !! "y"))
        <$> children (create_pads color)
      = (fun xy => (Some (str_int xy.1), Some (str_int xy.2)))
          <$> PadSpec_positions start_x start_y pad_size pad_gap.
Proof.
  split; [by apply Qc_is_canon|].
  repeat split; reflexivity.
Qed.

(** C5 as the specification words it fails: with [center_x] half the
    reference width the formula gives 108.99, and the pads start at 109. *)
Lemma pad_start_x_not_canvas_centered :
  PadSpec_reference_start_x = Q2Qc (10899 # 100)
  /\ Qc_of_Z start_x <> PadSpec_reference_start_x.
Proof.
  assert (PadSpec_reference_start_x = Q2Qc (10899 # 100)) as H
    by (by apply Qc_is_canon).
  split; [done|]. rewrite H. intros Heq.
  apply (f_equal this) in Heq. vm_compute in Heq. discriminate.
Qed.

(** ** The properties on the example inputs *)

(** C1 on the example document, painted white. *)
Lemma silhouette_recolor_witness :
  exists new_root,
    create_tray_body simple_float simple_repr "tray_body.svg" "white"
                     example_world
    = (mkWorld (<["tray_body.svg" := SvgFile new_root]> (fs example_world))
               (stdout example_world ++ ["Created " ++ "tray_body.svg"])
               (calls example_world), Ok tt)
    /\ forall (i : nat) (p : list nat) (elem : Element),
        subelement (i :: p) example_root = Some elem ->
        exists elem',
          subelement (0 :: 0 :: i :: p) new_root = Some elem'
          /\ tag elem' = tag elem
          /\ (attrib elem !! "fill" <> Some "none" ->
              attrib elem' !! "fill" = Some "white")
          /\ (attrib elem !! "fill" = Some "none" ->
              attrib elem' !! "fill" = Some "none")
          /\ (is_Some (attrib elem !! "stroke") ->
              attrib elem' !! "stroke" = Some "white")
          /\ (attrib elem !! "stroke" = None ->
              attrib elem' !! "stroke" = None)
          /\ (forall k, k <> "fill" -> k <> "stroke" ->
              attrib elem' !! k = attrib elem !! k).
Proof.
  apply (silhouette_recolor simple_float simple_repr example_world
           example_root "tray_body.svg" "white"
           (Fin (Q2Qc (0 # 1))) (Fin (Q2Qc (0 # 1)))
           (Fin (Q2Qc (400 # 1))) (Fin (Q2Qc (600 # 1)))).
  - vm_compute. reflexivity.
  - vm_compute. reflexivity.
Defined.

(** C2 on the 400 by 600 canvas. *)
Lemma make_square_canvas_witness :
  exists out side dx dy (sq dxq dyq : Qc),
    make_square simple_float simple_repr example_root = Ok out
    /\ square_geometry (Fin (Q2Qc (400 # 1))) (Fin (Q2Qc (600 # 1)))
       = (side, dx, dy)
    /\ is_square_canvas simple_repr out side dx dy (children example_root)
    /\ (side = Fin (Q2Qc (400 # 1)) \/ side = Fin (Q2Qc (600 # 1)))
    /\ finite_value side = Some sq
    /\ finite_value dx = Some dxq /\ finite_value dy = Some dyq
    /\ ((Q2Qc (400 # 1) <= sq)%Qc /\ (Q2Qc (600 # 1) <= sq)%Qc
        /\ (sq = Q2Qc (400 # 1) \/ sq = Q2Qc (600 # 1)))
    /\ dxq = ((sq - Q2Qc (400 # 1)) / two)%Qc
    /\ dyq = ((sq - Q2Qc (600 # 1)) / two)%Qc
    /\ ((Q2Qc (400 # 1) <= Q2Qc (600 # 1))%Qc ->
        sq = Q2Qc (600 # 1) /\ dyq = 0%Qc)
    /\ ((Q2Qc (600 # 1) <= Q2Qc (400 # 1))%Qc ->
        sq = Q2Qc (400 # 1) /\ dxq = 0%Qc)
    /\ (finite_value (Fin (Q2Qc (0 # 1))) = Some 0%Qc ->
        finite_value (Fin (Q2Qc (0 # 1))) = Some 0%Qc ->
        centered (Fin (Q2Qc (0 # 1))) (Fin (Q2Qc (0 # 1)))
                 (Fin (Q2Qc (400 # 1))) (Fin (Q2Qc (600 # 1)))
                 side dx dy)
    /\ (Fin (Q2Qc (400 # 1)) = Fin (Qc_of_Z 400) ->
        Fin (Q2Qc (600 # 1)) = Fin (Qc_of_Z 600) ->
        side = Fin (Qc_of_Z 600) /\ dx = Fin (Qc_of_Z 100)
        /\ dy = Fin 0%Qc).
Proof.
  apply (make_square_canvas simple_float simple_repr example_root
           (Fin (Q2Qc (0 # 1))) (Fin (Q2Qc (0 # 1)))
           (Fin (Q2Qc (400 # 1))) (Fin (Q2Qc (600 # 1)))
           (Q2Qc (400 # 1)) (Q2Qc (600 # 1))).
  - vm_compute. reflexivity.
  - reflexivity.
  - reflexivity.
  - split; vm_compute; reflexivity.
Defined.

(** C2 as the specification words it fails in three ways.  Off the
    origin: for the [viewBox] [10 0 400 600] the result is the canvas
    [0 0 600.0 600.0] with the content moved by [(100.0, 0.0)], so that the
    artwork, whose centre was at [x = 210], has its centre at 310 and not
    at 300.  With infinite sizes: for [0 0 inf inf] the offsets are
    [(inf - inf) / 2], and the content is moved by [(nan, nan)].  With
    finite sizes whose difference overflows: for [0 0 1e308 -1e308] the
    content is moved by [(0.0, inf)]. *)
Lemma make_square_off_origin_not_centered :
  ((exists out g,
      make_square simple_float simple_repr off_origin_root = Ok out
      /\ attrib out !! "viewBox" = Some "0 0 600.0 600.0"
      /\ attrib out !! "width" = Some "600.0"
      /\ attrib out !! "height" = Some "600.0"
      /\ children out = [g]
      /\ attrib g !! "transform" = Some "translate(100.0, 0.0)"
      /\ children g = children off_origin_root)
   /\ ~ squares_and_centers simple_float simple_repr off_origin_root)
  /\ ((exists out g,
      make_square simple_float simple_repr inf_root = Ok out
      /\ attrib out !! "viewBox" = Some "0 0 inf inf"
      /\ attrib out !! "width" = Some "inf"
      /\ attrib out !! "height" = Some "inf"
      /\ children out = [g]
      /\ attrib g !! "transform" = Some "translate(nan, nan)"
      /\ children g = children inf_root)
   /\ ~ squares_and_centers simple_float simple_repr inf_root)
  /\ ((exists out g,
      make_square simple_float simple_repr overflow_root = Ok out
      /\ attrib out !! "viewBox" = Some "0 0 1e+308 1e+308"
      /\ attrib out !! "width" = Some "1e+308"
      /\ attrib out !! "height" = Some "1e+308"
      /\ children out = [g]
      /\ attrib g !! "transform" = Some "translate(0.0, inf)"
      /\ children g = children overflow_root)
   /\ ~ squares_and_centers simple_float simple_repr overflow_root).
Proof.
  split; [|split]; (split; [eexists _, _; split; [vm_compute; reflexivity|];
                            repeat split; vm_compute; reflexivity|]).
  - intros H.
    destruct (H (Fin (Q2Qc (10 # 1))) (Fin (Q2Qc (0 # 1)))
                (Fin (Q2Qc (400 # 1))) (Fin (Q2Qc (600 # 1))))
      as (out & side & dx & dy & _ & Hgeo & _ & Hc);
      [vm_compute; reflexivity|].
    vm_compute in Hgeo. injection Hgeo as <- <- <-.
    destruct Hc as [Hx _].
    apply (f_equal this) in Hx. vm_compute in Hx. discriminate.
  - intros H.
    destruct (H (Fin (Q2Qc (0 # 1))) (Fin (Q2Qc (0 # 1)))
                (Inf false) (Inf false))
      as (out & side & dx & dy & _ & _ & _ & Hc);
      [vm_compute; reflexivity|].
    exact Hc.
  - intros H.
    destruct (H (Fin (Q2Qc (0 # 1))) (Fin (Q2Qc (0 # 1)))
                (Fin (Q2Qc (10 ^ 308 # 1)))
                (Fin (Q2Qc (- 10 ^ 308 # 1))))
      as (out & side & dx & dy & _ & Hgeo & _ & Hc);
      [vm_compute; reflexivity|].
    vm_compute in Hgeo. injection Hgeo as <- <- <-.
    exact Hc.
Qed.

(** C4 on the example document. *)
Lemma app_icon_recolor_witness :
  (forall v,
      caseless_eq v "#6AD7E5"
      <-> exists a d e,
          (a = "A" \/ a = "a")%char /\ (d = "D" \/ d = "d")%char
          /\ (e = "E" \/ e = "e")%char
          /\ v = String "#" (String "6" (String a (String d (String "7"
                   (String e (String "5" EmptyString)))))))
  /\ exists new_root,
    create_app_icon simple_float simple_repr example_world
    = (mkWorld (<[APP_ICON_PATH := SvgFile new_root]> (fs example_world))
               (stdout example_world ++ ["Created " ++ APP_ICON_PATH])
               (calls example_world), Ok tt)
    /\ forall (p : list nat) (elem : Element),
        subelement p example_root = Some elem ->
        exists elem',
          subelement p (update_blue example_root) = Some elem'
          /\ (forall i p', p = i :: p' ->
              subelement (0 :: p) new_root = Some elem')
          /\ tag elem' = tag elem
          /\ (forall v, attrib elem !! "fill" = Some v ->
              caseless_eq v "#6AD7E5" ->
              attrib elem' = <["fill" := "#00ADD8"]> (attrib elem))
          /\ (forall v, attrib elem !! "fill" = Some v ->
              ~ caseless_eq v "#6AD7E5" -> attrib elem' = attrib elem)
          /\ (attrib elem !! "fill" = None -> attrib elem' = attrib elem)
          /\ (forall k, k <> "fill" ->
              attrib elem' !! k = attrib elem !! k).
Proof.
  apply (app_icon_recolor simple_float simple_repr example_world example_root
           (Fin (Q2Qc (0 # 1))) (Fin (Q2Qc (0 # 1)))
           (Fin (Q2Qc (400 # 1))) (Fin (Q2Qc (600 # 1)))).
  - vm_compute. reflexivity.
  - vm_compute. reflexivity.
Defined.



(** C9 on the [viewBox] [10 0 400 600]. *)
Lemma make_square_discards_origin_witness :
  exists out side dx dy,
    make_square simple_float simple_repr off_origin_root = Ok out
    /\ square_geometry (Fin (Q2Qc (400 # 1))) (Fin (Q2Qc (600 # 1)))
       = (side, dx, dy)
    /\ is_square_canvas simple_repr out side dx dy (children off_origin_root)
    /\ (forall root' x' y',
          viewBox_numbers simple_float root'
          = Some [x'; y'; Fin (Q2Qc (400 # 1)); Fin (Q2Qc (600 # 1))] ->
          children root' = children off_origin_root ->
          make_square simple_float simple_repr root' = Ok out)
    /\ ~ centered (Fin (Q2Qc (10 # 1))) (Fin (Q2Qc (0 # 1)))
                  (Fin (Q2Qc (400 # 1))) (Fin (Q2Qc (600 # 1))) side dx dy
    /\ (forall x' y',
          centered x' y' (Fin (Q2Qc (400 # 1))) (Fin (Q2Qc (600 # 1)))
                   side dx dy
          <-> finite_value x' = Some 0%Qc /\ finite_value y' = Some 0%Qc
              /\ is_finite (Fin (Q2Qc (400 # 1)))
              /\ is_finite (Fin (Q2Qc (600 # 1)))
              /\ is_finite dx /\ is_finite dy).
Proof.
  apply (make_square_discards_origin simple_float simple_repr off_origin_root
           (Fin (Q2Qc (10 # 1))) (Fin (Q2Qc (0 # 1)))
           (Fin (Q2Qc (400 # 1))) (Fin (Q2Qc (600 # 1)))).
  - vm_compute. reflexivity.
  - left. simpl. intros H. injection H as H. discriminate H.
Defined.

(** C7 with a [magick] that fails on every call. *)
Lemma soft_failure_isolation_witness :
  (forall svg_path png_path w0, exists rc,
      let cmd := ["magick"; "-background"; "none"; svg_path; png_path] in
      (failing_magick cmd w0).1 = Exited rc
      /\ render_svg failing_magick example_str_exn svg_path png_path w0
         = (mkWorld (failing_magick cmd w0).2
              (stdout w0
               ++ [stage_line example_str_exn (Render svg_path png_path) rc])
              (calls w0 ++ [(cmd, Exited rc)]), Ok tt))
  /\ (forall body_png pads_png output_png w0, exists rc,
      let cmd := ["magick"; body_png; pads_png; "-compose"; "DstOut";
                  "-composite"; output_png] in
      (failing_magick cmd w0).1 = Exited rc
      /\ composite_tray_icon failing_magick example_str_exn
                             body_png pads_png output_png w0
         = (mkWorld (failing_magick cmd w0).2
              (stdout w0
               ++ [stage_line example_str_exn
                              (Composite body_png pads_png output_png) rc])
              (calls w0 ++ [(cmd, Exited rc)]), Ok tt))
  /\ exists (rcs : list Z) (files : gmap string File),
      length rcs = 6
      /\ main simple_float simple_repr failing_magick example_str_exn
              no_refusal example_world
         = (cleanup_temp_files no_refusal temp_files;;
            print "Icon generation complete.")
             (mkWorld files
                (stdout example_world ++ created_lines
                 ++ zip_with (stage_line example_str_exn) pipeline rcs)
                (calls example_world
                 ++ zip (stage_cmd <$> pipeline) (Exited <$> rcs)))
      /\ (removable no_refusal temp_files ->
          exists w' (removed : list string),
            main simple_float simple_repr failing_magick example_str_exn
                 no_refusal example_world = (w', Ok tt)
            /\ calls w'
               = (calls example_world
                  ++ zip (stage_cmd <$> pipeline) (Exited <$> rcs))%list
            /\ stdout w'
               = (stdout example_world ++ created_lines
                  ++ zip_with (stage_line example_str_exn) pipeline rcs
                  ++ map removed_line removed
                  ++ ["Icon generation complete."])%list
            /\ (forall p, p ∈ temp_files -> fs w' !! p = None)).
Proof.
  apply (soft_failure_isolation simple_float simple_repr failing_magick
           example_str_exn no_refusal example_world example_root
           (Fin (Q2Qc (0 # 1))) (Fin (Q2Qc (0 # 1)))
           (Fin (Q2Qc (400 # 1))) (Fin (Q2Qc (600 # 1)))).
  - vm_compute. reflexivity.
  - vm_compute. reflexivity.
  - intros cmd w0. exists 1%Z. reflexivity.
Defined.



(** C10 on a system without [magick]. *)
Lemma spawn_error_aborts_witness :
  (forall svg_path png_path w0,
      let cmd := ["magick"; "-background"; "none"; svg_path; png_path] in
      render_svg missing_magick example_str_exn svg_path png_path w0
      = (mkWorld (missing_magick cmd w0).2 (stdout w0)
                 (calls w0 ++ [(cmd, SpawnError FileNotFoundError)]),
         Raise (OS FileNotFoundError)))
  /\ (forall body_png pads_png output_png w0,
      let cmd := ["magick"; body_png; pads_png; "-compose"; "DstOut";
                  "-composite"; output_png] in
      composite_tray_icon missing_magick example_str_exn
                          body_png pads_png output_png w0
      = (mkWorld (missing_magick cmd w0).2 (stdout w0)
                 (calls w0 ++ [(cmd, SpawnError FileNotFoundError)]),
         Raise (OS FileNotFoundError)))
  /\ exists w',
      main simple_float simple_repr missing_magick example_str_exn
           no_refusal example_world = (w', Raise (OS FileNotFoundError))
      /\ calls w'
         = (calls example_world
            ++ [(["magick"; "-background"; "none"; "app_icon.svg";
                  "../../assets/app_icon.png"],
                 SpawnError FileNotFoundError)])%list
      /\ stdout w' = (stdout example_world ++ created_lines)%list.
Proof.
  apply (spawn_error_aborts simple_float simple_repr missing_magick
           example_str_exn no_refusal example_world example_root
           (Fin (Q2Qc (0 # 1))) (Fin (Q2Qc (0 # 1)))
           (Fin (Q2Qc (400 # 1))) (Fin (Q2Qc (600 # 1)))
           FileNotFoundError).
  - vm_compute. reflexivity.
  - vm_compute. reflexivity.
  - intros cmd w0. reflexivity.
Defined.

(** ** The testable properties of the specification, evaluated *)

Example go_blue_small_letters :
  attrib (go_blue (ET_Element svg_rect {[ "fill" := "#6ad7e5" ]}))
  = {[ "fill" := "#00ADD8" ]}.
Proof. reflexivity. Qed.

Example go_blue_other_colour :
  go_blue (ET_Element svg_rect {[ "fill" := "#6AD7E6" ]})
  = ET_Element svg_rect {[ "fill" := "#6AD7E6" ]}.
Proof. reflexivity. Qed.

Example paint_default_fill :
  attrib (paint "black" (ET_Element svg_rect {[ "x" := "1" ]}))
  = <[ "fill" := "black" ]> {[ "x" := "1" ]}.
Proof. reflexivity. Qed.

Example paint_fill_none :
  attrib (paint "black"
            (ET_Element svg_rect
               (<[ "stroke" := "#FFFFFF" ]> {[ "fill" := "none" ]})))
  = <[ "stroke" := "black" ]> {[ "fill" := "none" ]}.
Proof. reflexivity. Qed.

Example make_square_400_600 :
  make_square simple_float simple_repr
    (ET_Element svg_svg {[ "viewBox" := "0 0 400 600" ]})
  = Ok (mkElement svg_svg
          (list_to_map
             [ ("viewBox", "0 0 600.0 600.0"); ("width", "600.0");
               ("height", "600.0"); ("version", "1.1") ])
          None None
          [ ET_Element svg_g {[ "transform" := "translate(100.0, 0.0)" ]} ]).
Proof. vm_compute. reflexivity. Qed.

(** The special values.  The negative zero wins over the zero when it
    comes first; [nan] as a width makes the side [nan], as a height it
    leaves the side alone; an infinite size gives an infinite or undefined
    offset. *)
Example make_square_special_values :
  let transform_of (viewBox : string) :=
    match make_square simple_float simple_repr
            (ET_Element svg_svg {[ "viewBox" := viewBox ]}) with
    | Ok out =>
        (attrib out !! "viewBox",
         (fun g => attrib g !! "transform") <$> children out)
    | Raise _ => (None, [])
    end in
  transform_of "0 0 -0 0"
  = (Some "0 0 -0.0 -0.0", [Some "translate(0.0, -0.0)"])
  /\ transform_of "0 0 0 -0"
     = (Some "0 0 0.0 0.0", [Some "translate(0.0, 0.0)"])
  /\ transform_of "0 0 nan 5"
     = (Some "0 0 nan nan", [Some "translate(nan, nan)"])
  /\ transform_of "0 0 5 nan"
     = (Some "0 0 5.0 5.0", [Some "translate(0.0, nan)"])
  /\ transform_of "0 0 -inf 5"
     = (Some "0 0 5.0 5.0", [Some "translate(inf, 0.0)"])
  /\ transform_of "0 0 1e999 1"
     = (Some "0 0 inf inf", [Some "translate(nan, inf)"]).
Proof. vm_compute. repeat split; reflexivity. Qed.

(** The words of a [viewBox] are separated by any Unicode white space, a
    no-break space (bytes 194, 160) included, and may be written as
    [float()] accepts them. *)
Example make_square_no_break_space :
  make_square simple_float simple_repr
    (ET_Element svg_svg
       {[ "viewBox" := "0 0" ++ String (ascii_of_nat 194)
                         (String (ascii_of_nat 160) "4e2 +600.") ]})
  = make_square simple_float simple_repr
      (ET_Element svg_svg {[ "viewBox" := "0 0 400 600" ]}).
Proof. vm_compute. reflexivity. Qed.

Example main_with_failing_magick :
  let r := main simple_float simple_repr failing_magick example_str_exn
                no_refusal example_world in
  r.2 = Ok tt
  /\ stdout r.1
     = [ "Created app_icon.svg"; "Created tray_body.svg";
         "Created tray_body_black.svg"; "Created tray_pads.svg";
         "Error rendering app_icon.svg: Command '['magick', '-background', 'none', 'app_icon.svg', '../../assets/app_icon.png']' returned non-zero exit status 1.";
         "Error rendering tray_body.svg: Command '['magick', '-background', 'none', 'tray_body.svg', 'tray_body.png']' returned non-zero exit status 1.";
         "Error rendering tray_body_black.svg: Command '['magick', '-background', 'none', 'tray_body_black.svg', 'tray_body_black.png']' returned non-zero exit status 1.";
         "Error rendering tray_pads.svg: Command '['magick', '-background', 'none', 'tray_pads.svg', 'tray_pads.png']' returned non-zero exit status 1.";
         "Error compositing ../../assets/tray_icon.png: Command '['magick', 'tray_body.png', 'tray_pads.png', '-compose', 'DstOut', '-composite', '../../assets/tray_icon.png']' returned non-zero exit status 1.";
         "Error compositing ../../assets/tray_icon_black.png: Command '['magick', 'tray_body_black.png', 'tray_pads.png', '-compose', 'DstOut', '-composite', '../../assets/tray_icon_black.png']' returned non-zero exit status 1.";
         "Removed temp file app_icon.svg"; "Removed temp file tray_body.svg";
         "Removed temp file tray_body_black.svg";
         "Removed temp file tray_pads.svg"; "Icon generation complete." ]
  /\ dom (fs r.1) = {[ CANONICAL_PATH ]}.
Proof. vm_compute. repeat split; reflexivity. Qed.

Example main_without_magick :
  let r := main simple_float simple_repr missing_magick example_str_exn
                no_refusal example_world in
  r.2 = Raise (OS FileNotFoundError)
  /\ stdout r.1
     = [ "Created app_icon.svg"; "Created tray_body.svg";
         "Created tray_body_black.svg"; "Created tray_pads.svg" ]
  /\ length (calls r.1) = 1
  /\ dom (fs r.1)
     = {[ CANONICAL_PATH; "app_icon.svg"; "tray_body.svg";
          "tray_body_black.svg"; "tray_pads.svg" ]}.
Proof. vm_compute. repeat split; reflexivity. Qed.

(** ** The further properties on example inputs *)

(** X1 on a [viewBox] written with commas, which is one word and no
    number. *)
Lemma make_square_value_error_witness :
  let root := ET_Element svg_svg {[ "viewBox" := "0,0,400,600" ]} in
  ((exists out, make_square simple_float simple_repr root = Ok out)
   <-> length (viewBox_words root) = 4
       /\ Forall (fun word => is_Some (simple_float word))
                 (viewBox_words root))
  /\ (make_square simple_float simple_repr root = Raise ValueError
      <-> length (viewBox_words root) <> 4
          \/ Exists (fun word => simple_float word = None)
                    (viewBox_words root))
  /\ (forall e, make_square simple_float simple_repr root = Raise e ->
                e = ValueError).
Proof.
  exact (make_square_value_error simple_float simple_repr
           (ET_Element svg_svg {[ "viewBox" := "0,0,400,600" ]})).
Defined.

(** X4 on the example document. *)
Lemma make_square_fresh_root_witness :
  let out := squared simple_repr (Fin (Q2Qc (400 # 1)))
                     (Fin (Q2Qc (600 # 1))) (children example_root) in
  tag out = svg_svg /\ text out = None /\ tail out = None
  /\ (forall k, is_Some (attrib out !! k)
                <-> k ∈ ["viewBox"; "width"; "height"; "version"])
  /\ attrib out !! "version" = Some "1.1"
  /\ (exists g,
        children out = [g]
        /\ tag g = svg_g /\ text g = None /\ tail g = None
        /\ (forall k, is_Some (attrib g !! k) <-> k = "transform")
        /\ children g = children example_root)
  /\ (forall root',
        attrib root' !! "viewBox" = attrib example_root !! "viewBox" ->
        children root' = children example_root ->
        make_square simple_float simple_repr root' = Ok out).
Proof.
  apply (make_square_fresh_root simple_float simple_repr example_root).
  vm_compute. reflexivity.
Defined.

(** X5 on the example document. *)
Lemma make_square_twice_witness :
  exists out out2,
    make_square simple_float simple_repr example_root = Ok out
    /\ make_square simple_float simple_repr out = Ok out2
    /\ attrib out2 = attrib out
    /\ is_square_canvas simple_repr out2
         (max_float (Fin (Q2Qc (400 # 1))) (Fin (Q2Qc (600 # 1))))
         (Fin 0%Qc) (Fin 0%Qc) (children out).
Proof.
  apply (make_square_twice simple_float simple_repr example_root
           (Fin (Q2Qc (0 # 1))) (Fin (Q2Qc (0 # 1)))
           (Fin (Q2Qc (400 # 1))) (Fin (Q2Qc (600 # 1)))).
  - vm_compute. reflexivity.
  - exact I.
  - vm_compute. discriminate.
  - vm_compute. reflexivity.
  - vm_compute. do 2 f_equal. apply Qc_is_canon. reflexivity.
  - vm_compute. reflexivity.
Defined.

(** X6: white, then black, on the blue group of the example. *)
Lemma repaint_witness :
  paint_elem "black"
    (paint_elem "white"
       (mkElement svg_g {[ "fill" := "#6aD7e5" ]} None None
          [ ET_Element svg_rect
              (<[ "stroke" := "#000000" ]> {[ "fill" := "none" ]}) ]))
  = paint_elem "black"
      (mkElement svg_g {[ "fill" := "#6aD7e5" ]} None None
         [ ET_Element svg_rect
             (<[ "stroke" := "#000000" ]> {[ "fill" := "none" ]}) ]).
Proof.
  apply (repaint "white" "black"). left. discriminate.
Defined.

(** X7 on the example document. *)
Lemma update_blue_complete_witness :
  update_blue (update_blue example_root) = update_blue example_root
  /\ forall (p : list nat) (elem : Element) (v : string),
      subelement p (update_blue example_root) = Some elem ->
      attrib elem !! "fill" = Some v ->
      ~ caseless_eq v "#6AD7E5".
Proof. exact (update_blue_complete example_root). Defined.

(** X8 on the example document, painted black. *)
Lemma tray_body_flat_witness :
  exists new_root g body,
    create_tray_body simple_float simple_repr "tray_body_black.svg" "black"
                     example_world
    = (mkWorld (<["tray_body_black.svg" := SvgFile new_root]>
                  (fs example_world))
               (stdout example_world
                ++ ["Created " ++ "tray_body_black.svg"])
               (calls example_world), Ok tt)
    /\ children new_root = [g] /\ children g = [body]
    /\ tag body = svg_g /\ attrib body = ∅
    /\ (forall (i : nat) (p : list nat) (elem' : Element),
          subelement (i :: p) body = Some elem' ->
          (attrib elem' !! "fill" = Some "black"
           \/ attrib elem' !! "fill" = Some "none")
          /\ (attrib elem' !! "stroke" = None
              \/ attrib elem' !! "stroke" = Some "black"))
    /\ (forall p : list nat,
          is_Some (subelement p body)
          <-> is_Some (subelement p example_root)).
Proof.
  apply (tray_body_flat simple_float simple_repr example_world example_root
           "tray_body_black.svg" "black"
           (Fin (Q2Qc (0 # 1))) (Fin (Q2Qc (0 # 1)))
           (Fin (Q2Qc (400 # 1))) (Fin (Q2Qc (600 # 1))));
    vm_compute; reflexivity.
Defined.

(** X9 on the example document. *)
Lemma app_icon_pads_on_top_witness :
  exists new_root g,
    create_app_icon simple_float simple_repr example_world
    = (mkWorld (<[APP_ICON_PATH := SvgFile new_root]> (fs example_world))
               (stdout example_world ++ ["Created " ++ APP_ICON_PATH])
               (calls example_world), Ok tt)
    /\ children new_root = [g]
    /\ length (children g) = S (length (children example_root))
    /\ last (children g) = Some (create_pads "#FFFFFF")
    /\ (forall (i : nat) (elem : Element),
          children example_root !! i = Some elem ->
          children g !! i = Some (update_blue elem))
    /\ (forall (p : list nat) (elem : Element) (v : string),
          subelement (length (children example_root) :: p) g = Some elem ->
          attrib elem !! "fill" = Some v -> v = "#FFFFFF").
Proof.
  apply (app_icon_pads_on_top simple_float simple_repr example_world
           example_root
           (Fin (Q2Qc (0 # 1))) (Fin (Q2Qc (0 # 1)))
           (Fin (Q2Qc (400 # 1))) (Fin (Q2Qc (600 # 1))));
    vm_compute; reflexivity.
Defined.

(** X10 on the example document. *)
Lemma builders_aligned_witness :
  exists w' icon body black pads gi gb gk gp,
    (create_app_icon simple_float simple_repr;;
     create_tray_layers simple_float simple_repr) example_world = (w', Ok tt)
    /\ fs w' !! "app_icon.svg" = Some (SvgFile icon)
    /\ fs w' !! "tray_body.svg" = Some (SvgFile body)
    /\ fs w' !! "tray_body_black.svg" = Some (SvgFile black)
    /\ fs w' !! "tray_pads.svg" = Some (SvgFile pads)
    /\ fs w' !! CANONICAL_PATH = Some (SvgFile example_root)
    /\ attrib icon = attrib body /\ attrib body = attrib black
    /\ attrib black = attrib pads
    /\ children icon = [gi] /\ children body = [gb]
    /\ children black = [gk] /\ children pads = [gp]
    /\ attrib gi = attrib gb /\ attrib gb = attrib gk
    /\ attrib gk = attrib gp
    /\ children gb = [body_group "white" example_root]
    /\ children gk = [body_group "black" example_root]
    /\ children gp = [create_pads "black"].
Proof.
  apply (builders_aligned simple_float simple_repr example_world example_root
           (Fin (Q2Qc (0 # 1))) (Fin (Q2Qc (0 # 1)))
           (Fin (Q2Qc (400 # 1))) (Fin (Q2Qc (600 # 1))));
    vm_compute; reflexivity.
Defined.


(** X12 after a cleanup that removed the only file. *)
Lemma cleanup_twice_witness :
  (forall p, p ∈ ["app_icon.svg"; "gopher_canonical.svg"] ->
             fs (mkWorld ∅ ["Removed temp file gopher_canonical.svg"] [])
             !! p = None)
  /\ cleanup_temp_files no_refusal ["app_icon.svg"; "gopher_canonical.svg"]
       (mkWorld ∅ ["Removed temp file gopher_canonical.svg"] [])
     = (mkWorld ∅ ["Removed temp file gopher_canonical.svg"] [], Ok tt).
Proof.
  apply (cleanup_twice no_refusal ["app_icon.svg"; "gopher_canonical.svg"]
           example_world).
  vm_compute. reflexivity.
Defined.


